(** * UserSettingsParser: a file-backed key=value settings store

    Shallow embedding of [UserSettingsParser.hpp] and the properties of its
    load / get / set / save operations.

    Conventions.
    - [std::string] is [string]; a character is an [ascii].
    - [std::unordered_map<std::string, std::string>] is [gmap string string];
      its iteration order, which the C++ standard leaves unspecified, is a
      parameter of the functions that iterate.
    - [int] is a [Z] in the range [INT_MIN .. INT_MAX] (32 bits).
    - [std::ifstream] and [std::istringstream] are a buffer of characters
      with the state bits that [std::getline] sets; the file system is a map
      from paths to contents and a set of paths that cannot be written.
    - An operation of the class is a function from the world (the object and
      the file system) to an outcome and a new world.  A C++ exception does
      not roll anything back, so the world after a throw is part of the
      result.
    - [std::mutex] is not recursive: locking it again from the thread that
      holds it has undefined behaviour.  The member [mutex_] is modelled by
      the flag that says whether the calling thread holds it; a call from
      outside finds it free.
    - The loop of [loadSettings] runs on a bound computed from the length
      of the file; the properties show that the bound is never reached. *)

From stdpp Require Import gmap strings list fin_maps.
From Stdlib Require Import ZArith Ascii String DecimalString DecimalZ.

Local Open Scope string_scope.
#[local] Arguments String.append !s1 s2 : simpl nomatch.

(** ** Exceptions and outcomes *)

Inductive exn :=
| runtime_error (what : string)
| invalid_argument (what : string)
| out_of_range (what : string).

Inductive outcome (A : Type) :=
| Returns (a : A)
| Throws (e : exn)
| Undefined          (* undefined behaviour was reached *)
| OutOfFuel.         (* the model's loop bound was too small *)
Arguments Returns {A} a.
Arguments Throws {A} e.
Arguments Undefined {A}.
Arguments OutOfFuel {A}.

(** The four error kinds of the specification, as the code raises them. *)
Definition IOError_open (filename : string) : exn :=
  runtime_error ("Unable to open settings file: " ++ filename).
Definition IOError_create (filename : string) : exn :=
  runtime_error ("Unable to create settings file: " ++ filename).
Definition NotFoundError (key : string) : exn :=
  runtime_error ("Setting not found: " ++ key).
Definition StateError : exn :=
  runtime_error "No filename specified for saving settings.".

Definition is_throw {A} (o : outcome A) : bool :=
  match o with Throws _ => true | _ => false end.

(** ** Characters *)

Definition newline : ascii := "010"%char.
Definition equals : ascii := "="%char.
Definition nl : string := String newline "".

(** ** Input streams ([std::istream] over a character buffer)

    Only the state that [std::getline] reads and writes: the characters not
    yet extracted and the two state bits it can set. *)

Record istream := mk_istream {
  rdbuf : string;
  eofbit : bool;
  failbit : bool
}.

Definition good (s : istream) : bool := negb (eofbit s || failbit s).
(** [operator bool] of a stream is [!fail()]. *)
Definition stream_ok (s : istream) : bool := negb (failbit s).

(** A stream freshly opened on [content] ([std::istringstream(content)], or
    an [std::ifstream] whose file holds [content]). *)
Definition istringstream (content : string) : istream :=
  mk_istream content false false.

(** Extraction of [std::getline]: characters are taken up to the delimiter,
    which is extracted and dropped, or up to the end of the buffer.  The
    result is the extracted text, the rest of the buffer, and whether the
    delimiter was met. *)
Fixpoint extract (buf : string) (delim : ascii) : string * string * bool :=
  match buf with
  | EmptyString => ("", "", false)
  | String c rest =>
      if Ascii.eqb c delim then ("", rest, true)
      else let '(chars, rest', found) := extract rest delim in
           (String c chars, rest', found)
  end.

(** [std::getline(is, str, delim)].  When the stream is not [good()] the
    sentry fails: [failbit] is set and [str] is left as it was.  Otherwise
    [str] is erased and filled; reaching the end sets [eofbit], and
    extracting no character at all (not even the delimiter) sets [failbit]. *)
Definition getline (strm : istream) (str : string) (delim : ascii)
  : istream * string :=
  if good strm then
    let '(chars, rest, found) := extract (rdbuf strm) delim in
    (mk_istream rest (negb found)
                (negb found && bool_decide (chars = "")), chars)
  else
    (mk_istream (rdbuf strm) (eofbit strm) true, str).

(** ** The file system

    [files] maps the path of each existing regular file to its content;
    [denied] holds the paths that cannot be opened for writing (missing
    directory, no permission).  The empty path names no file: [open(2)] fails
    on it with [ENOENT]. *)

Record filesystem := mk_fs {
  files : gmap string string;
  denied : gset string
}.

(** [std::ifstream file(filename); file.is_open()] *)
Definition ifstream_open (fs : filesystem) (filename : string) : option istream :=
  if bool_decide (filename = "") then None
  else istringstream <$> files fs !! filename.

(** [std::ofstream file(filename); file.is_open()]: the file is created or
    truncated. *)
Definition ofstream_open (fs : filesystem) (filename : string) : option filesystem :=
  if bool_decide (filename = "") then None
  else if bool_decide (filename ∈ denied fs) then None
  else Some (mk_fs (<[filename := ""]> (files fs)) (denied fs)).

(** [file << text] followed, in the end, by [file.close()]: the text is
    appended to the file. *)
Definition ofstream_write (fs : filesystem) (filename text : string) : filesystem :=
  mk_fs (<[filename := default "" (files fs !! filename) ++ text]> (files fs))
        (denied fs).

(** [std::filesystem::exists(filename)], on the files of this model: the
    regular files that can be opened.  A path that exists and cannot be
    read, and the error that [exists] itself can raise, are not
    modelled. *)
Definition exists_file (fs : filesystem) (filename : string) : bool :=
  negb (bool_decide (filename = ""))
  && bool_decide (is_Some (files fs !! filename)).

(** ** The object and the world *)

(** The data members of [class UserSettingsParser]. *)
Record UserSettingsParser := mk_parser {
  settings_ : gmap string string;
  mutex_ : bool;                   (* held by the calling thread *)
  currentFilename_ : string
}.

(** The singleton as [getInstance()] first returns it: default-constructed
    members. *)
Definition getInstance : UserSettingsParser := mk_parser ∅ false "".

Record World := mk_world {
  self : UserSettingsParser;
  disk : filesystem
}.

Definition with_settings (m : gmap string string) (w : World) : World :=
  mk_world (mk_parser m (mutex_ (self w)) (currentFilename_ (self w))) (disk w).
Definition with_mutex (b : bool) (w : World) : World :=
  mk_world (mk_parser (settings_ (self w)) b (currentFilename_ (self w))) (disk w).
Definition with_currentFilename (f : string) (w : World) : World :=
  mk_world (mk_parser (settings_ (self w)) (mutex_ (self w)) f) (disk w).
Definition with_disk (fs : filesystem) (w : World) : World :=
  mk_world (self w) fs.

(** ** The monad of member functions *)

Definition M (A : Type) : Type := World → outcome A * World.

Definition ret {A} (a : A) : M A := λ w, (Returns a, w).
Definition throw {A} (e : exn) : M A := λ w, (Throws e, w).
Definition bind {A B} (c : M A) (k : A → M B) : M B := λ w,
  match c w with
  | (Returns a, w') => k a w'
  | (Throws e, w') => (Throws e, w')
  | (Undefined, w') => (Undefined, w')
  | (OutOfFuel, w') => (OutOfFuel, w')
  end.

Notation "'let*' x ':=' c 'in' k" := (bind c (λ x, k))
  (at level 10, x name, c at level 200, k at level 200).

Definition read_self : M UserSettingsParser := λ w, (Returns (self w), w).
Definition read_disk : M filesystem := λ w, (Returns (disk w), w).
Definition write_settings (m : gmap string string) : M unit :=
  λ w, (Returns tt, with_settings m w).
Definition write_currentFilename (f : string) : M unit :=
  λ w, (Returns tt, with_currentFilename f w).
Definition write_disk (fs : filesystem) : M unit :=
  λ w, (Returns tt, with_disk fs w).

(** [std::lock_guard<std::mutex> lock(mutex_);] around the rest of a member
    function.  The guard's destructor unlocks on return and on a throw.
    Locking a mutex the caller already holds is undefined behaviour. *)
Definition lock_guard {A} (body : M A) : M A := λ w,
  if mutex_ (self w) then (Undefined, w)
  else let '(r, w') := body (with_mutex true w) in (r, with_mutex false w').

(** ** Conversions of the standard library *)

Definition INT_MAX : Z := 2147483647.
Definition INT_MIN : Z := -2147483648.

(** [isspace] and [isdigit] in the "C" locale. *)
Definition isspace (c : ascii) : bool :=
  let n := N_of_ascii c in
  (n =? 32)%N || ((9 <=? n)%N && (n <=? 13)%N).
Definition isdigit (c : ascii) : bool :=
  let n := N_of_ascii c in (48 <=? n)%N && (n <=? 57)%N.
Definition digit_value (c : ascii) : Z := Z.of_N (N_of_ascii c) - 48.

Fixpoint skip_spaces (s : string) : string :=
  match s with
  | String c rest => if isspace c then skip_spaces rest else s
  | EmptyString => s
  end.

(** The digits at the start of [s], accumulated into [acc]; the second
    component counts them. *)
Fixpoint scan_digits (acc : Z) (s : string) : Z * nat :=
  match s with
  | String c rest =>
      if isdigit c then
        let '(v, n) := scan_digits (10 * acc + digit_value c) rest in (v, S n)
      else (acc, 0)
  | EmptyString => (acc, 0)
  end.

(** The optional sign that [strtol] reads before the digits. *)
Definition read_sign (s : string) : bool * string :=
  match s with
  | String "-" rest => (true, rest)
  | String "+" rest => (false, rest)
  | _ => (false, s)
  end.

(** [std::stoi(str)], that is [strtol] in base 10 with the two checks of
    [stoi]: white space is skipped, an optional sign is read, then the
    longest run of digits; what follows the digits is ignored.  No digit:
    [std::invalid_argument].  A value that does not fit [int] (or not even
    [long], where [strtol] reports [ERANGE]): [std::out_of_range]. *)
Definition stoi (str : string) : outcome Z :=
  let '(negative, s) := read_sign (skip_spaces str) in
  let '(v, n) := scan_digits 0 s in
  if bool_decide (n = 0) then Throws (invalid_argument "stoi")
  else
    let v := if negative then (- v)%Z else v in
    if bool_decide (INT_MIN ≤ v ≤ INT_MAX)%Z then Returns v
    else Throws (out_of_range "stoi").

(** [std::to_string(int)]: the decimal numeral, with [-] when negative. *)
Definition to_string_int (value : Z) : string :=
  DecimalString.NilZero.string_of_int (Z.to_int value).

(** ** The member functions *)

(** [createFileIfNotExists]: takes no lock. *)
Definition createFileIfNotExists (filename : string) : M unit :=
  let* fs := read_disk in
  if exists_file fs filename then ret tt
  else match ofstream_open fs filename with
       | None => throw (IOError_create filename)
       | Some fs' => write_disk fs'
       end.

(** The body of the [while (std::getline(file, line))] loop of
    [loadSettings], iterated.  Each turn that enters the body extracts at
    least one character of [file], so [S (length (rdbuf file))] turns are
    enough; [None] reports a bound that was too small. *)
Fixpoint read_lines (fuel : nat) (file : istream) (line : string)
    (settings : gmap string string) : option (gmap string string) :=
  match fuel with
  | O => None
  | S fuel =>
      let '(file, line) := getline file line newline in
      if stream_ok file then
        let iss := istringstream line in
        let '(iss, key) := getline iss "" equals in
        if stream_ok iss then
          let '(iss, value) := getline iss "" newline in
          if stream_ok iss then
            read_lines fuel file line (<[key := value]> settings)
          else read_lines fuel file line settings
        else read_lines fuel file line settings
      else Some settings
  end.

Definition loadSettings (filename : string) : M unit :=
  lock_guard (
    let* fs := read_disk in
    match ifstream_open fs filename with
    | None => throw (IOError_open filename)
    | Some file =>
        let* this := read_self in
        match read_lines (S (String.length (rdbuf file))) file "" (settings_ this) with
        | None => λ w, (OutOfFuel, w)
        | Some settings =>
            let* _ := write_settings settings in
            write_currentFilename filename
        end
    end).

Definition getValue (key : string) : M string :=
  lock_guard (
    let* this := read_self in
    match settings_ this !! key with
    | Some value => ret value
    | None => throw (NotFoundError key)
    end).

Definition setValue (key value : string) : M unit :=
  lock_guard (
    let* this := read_self in
    write_settings (<[key := value]> (settings_ this))).

Definition lift_outcome {A} (o : outcome A) : M A := λ w, (o, w).

(** [getValueAs<int>] *)
Definition getValueAs_int (key : string) : M Z :=
  let* value := getValue key in lift_outcome (stoi value).

(** [getValueAs<bool>] *)
Definition getValueAs_bool (key : string) : M bool :=
  let* value := getValue key in
  ret (String.eqb value "true" || String.eqb value "1").

(** [setValueAs<int>] *)
Definition setValueAs_int (key : string) (value : Z) : M unit :=
  setValue key (to_string_int value).

(** [setValueAs<bool>] *)
Definition setValueAs_bool (key : string) (value : bool) : M unit :=
  setValue key (if value then "true" else "false").

(** ** The file format, in the words of the specification

    These definitions do not come from the code: they say what the
    specification says about the file format, and the code is compared
    with them below. *)

(** The lines of a file: the text between newlines.  The last line need
    not be terminated. *)
Fixpoint file_lines (content : string) : list string :=
  match content with
  | EmptyString => []
  | String c rest =>
      if Ascii.eqb c newline then "" :: file_lines rest
      else match file_lines rest with
           | [] => [String c ""]
           | line :: lines => String c line :: lines
           end
  end.

(** What is before and what is after the first occurrence of [c]. *)
Fixpoint split_at_first (c : ascii) (s : string) : option (string * string) :=
  match s with
  | EmptyString => None
  | String a rest =>
      if Ascii.eqb a c then Some ("", rest)
      else match split_at_first c rest with
           | Some (before, after) => Some (String a before, after)
           | None => None
           end
  end.

(** "The key is everything before the first [=] on the line, the value is
    everything after it; lines without a [=] or without any trailing value
    are ignored." *)
Definition line_entry (line : string) : option (string * string) :=
  match split_at_first equals line with
  | Some (key, value) =>
      if bool_decide (value = "") then None else Some (key, value)
  | None => None
  end.

(** What a line does to a mapping. *)
Definition apply_line (settings : gmap string string) (line : string)
  : gmap string string :=
  match line_entry line with
  | Some (key, value) => <[key := value]> settings
  | None => settings
  end.

(** The pairs of a file, in the order of its lines. *)
Definition file_entries (content : string) : list (string * string) :=
  omap line_entry (file_lines content).

(** The value that the last entry for [key] gives it. *)
Definition last_binding (key : string) (entries : list (string * string))
  : option string :=
  snd <$> last (filter (λ e, e.1 = key) entries).

(** Entries applied to a mapping in order: a later one overwrites. *)
Definition apply_entries (m : gmap string string)
    (entries : list (string * string)) : gmap string string :=
  foldl (λ m e, <[e.1 := e.2]> m) m entries.

(** "The set of pairs parsed from the file". *)
Definition parsed_pairs (content : string) : gmap string string :=
  apply_entries ∅ (file_entries content).

(** A numeral of a base-10 integer: an optional sign and one digit or
    more, and nothing else. *)
Definition all_digits (s : string) : bool :=
  forallb isdigit (list_ascii_of_string s).
Definition base10_numeral (s : string) : bool :=
  match s with
  | String "-" rest | String "+" rest =>
      negb (bool_decide (rest = "")) && all_digits rest
  | _ => negb (bool_decide (s = "")) && all_digits s
  end.
(** The integer that a run of digits denotes. *)
Definition digits_value (s : string) : Z :=
  fold_left (λ acc c, 10 * acc + digit_value c)%Z (list_ascii_of_string s) 0%Z.
Definition numeral_value (s : string) : Z :=
  match s with
  | String "-" rest => (- digits_value rest)%Z
  | String "+" rest => digits_value rest
  | _ => digits_value s
  end.

(** White space only. *)
Definition all_spaces (s : string) : bool :=
  forallb isspace (list_ascii_of_string s).
Definition starts_with_digit (s : string) : bool :=
  match s with
  | String c _ => isdigit c
  | EmptyString => false
  end.
Definition in_int_range (v : Z) : bool :=
  bool_decide (INT_MIN ≤ v ≤ INT_MAX)%Z.

(** "Each entry as one [key=value] line", "output lines terminated by a
    single newline": the text of a file that holds [entries]. *)
Definition settings_text (entries : list (string * string)) : string :=
  foldr (λ e text, e.1 ++ "=" ++ e.2 ++ nl ++ text) "" entries.

(** No [=] and no newline in a string. *)
Definition plain (s : string) : Prop :=
  (equals ∉ list_ascii_of_string s) ∧ newline ∉ list_ascii_of_string s.

#[global] Instance plain_dec (s : string) : Decision (plain s).
Proof. unfold plain. apply _. Defined.

(** An instance of what the header leaves open, for the examples at the
    end: the map is iterated in the order of [map_to_list], and no
    floating-point value occurs. *)
Definition example_iteration (m : gmap string string)
  : list (string * string) := map_to_list m.
Definition example_stod (s : string) : outcome Empty_set :=
  Throws (invalid_argument "stod").
Definition example_to_string (d : Empty_set) : string :=
  match d with end.

(** Evaluates [digit_value] on the characters that are given. *)
Ltac eval_digit_value :=
  repeat match goal with
         | |- context [digit_value ?c] =>
             let v := eval vm_compute in (digit_value c) in
             change (digit_value c) with v
         end.

(** The remaining member functions depend on two things the header leaves
    open: the order in which [std::unordered_map] is iterated, and the
    floating-point conversions [std::stod] and [std::to_string(double)]. *)
Section Store.

Variable double : Type.
Variable stod : string → outcome double.
Variable to_string_double : double → string.

(** The sequence in which a range-for over the map yields its entries:
    every entry once, in an order of the implementation's choosing. *)
Variable iteration : gmap string string → list (string * string).
Hypothesis iteration_perm : ∀ m, iteration m ≡ₚ map_to_list m.

(** One turn of the loop of [saveSettingsAs]:
    [file << setting.first << "=" << setting.second << "\n"]. *)
Definition write_setting (filename : string) (fs : filesystem)
    (setting : string * string) : filesystem :=
  let put fs text := ofstream_write fs filename text in
  put (put (put (put fs setting.1) "=") setting.2) nl.

Definition saveSettingsAs (filename : string) : M unit :=
  lock_guard (
    let* fs := read_disk in
    match ofstream_open fs filename with
    | None => throw (IOError_open filename)
    | Some file =>
        let* this := read_self in
        write_disk (foldl (write_setting filename) file
                          (iteration (settings_ this)))
    end).

(** The statements of [saveSettings] that follow its [lock_guard]. *)
Definition saveSettings_locked : M unit :=
  let* this := read_self in
  if bool_decide (currentFilename_ this = "") then throw StateError
  else saveSettingsAs (currentFilename_ this).

(** [saveSettings] still holds [mutex_] when it calls [saveSettingsAs]. *)
Definition saveSettings : M unit := lock_guard saveSettings_locked.

(** [getValueAs<double>] *)
Definition getValueAs_double (key : string) : M double :=
  let* value := getValue key in lift_outcome (stod value).

(** [setValueAs<double>] *)
Definition setValueAs_double (key : string) (value : double) : M unit :=
  setValue key (to_string_double value).

(** *** Calls from outside *)

Inductive call :=
| call_createFileIfNotExists (filename : string)
| call_loadSettings (filename : string)
| call_getValue (key : string)
| call_getValueAs_int (key : string)
| call_getValueAs_double (key : string)
| call_getValueAs_bool (key : string)
| call_setValue (key value : string)
| call_setValueAs_int (key : string) (value : Z)
| call_setValueAs_double (key : string) (value : double)
| call_setValueAs_bool (key : string) (value : bool)
| call_saveSettings
| call_saveSettingsAs (filename : string).

Definition void {A} (c : M A) : M unit := let* _ := c in ret tt.

Definition perform (c : call) : M unit :=
  match c with
  | call_createFileIfNotExists filename => createFileIfNotExists filename
  | call_loadSettings filename => loadSettings filename
  | call_getValue key => void (getValue key)
  | call_getValueAs_int key => void (getValueAs_int key)
  | call_getValueAs_double key => void (getValueAs_double key)
  | call_getValueAs_bool key => void (getValueAs_bool key)
  | call_setValue key value => setValue key value
  | call_setValueAs_int key value => setValueAs_int key value
  | call_setValueAs_double key value => setValueAs_double key value
  | call_setValueAs_bool key value => setValueAs_bool key value
  | call_saveSettings => saveSettings
  | call_saveSettingsAs filename => saveSettingsAs filename
  end.

(** A client that makes the calls one after the other and catches what
    they throw.  Nothing is defined after undefined behaviour, so the
    run stops there. *)
Fixpoint run (calls : list call) (w : World) : list (outcome unit) * World :=
  match calls with
  | [] => ([], w)
  | c :: calls =>
      let '(r, w) := perform c w in
      match r with
      | Returns _ | Throws _ =>
          let '(rs, w) := run calls w in (r :: rs, w)
      | _ => ([r], w)
      end
  end.

Definition defined {A} (r : outcome A) : bool :=
  match r with Returns _ | Throws _ => true | _ => false end.

(** A load among [calls] has succeeded: [results] are the outcomes of the
    calls, in order. *)
Definition load_succeeded (calls : list call) (results : list (outcome unit))
  : bool :=
  existsb (λ cr, match cr with
                 | (call_loadSettings _, Returns _) => true
                 | _ => false
                 end) (zip calls results).

(** * Properties *)

(** ** Strings *)

Lemma string_app_nil_r (s : string) : s ++ "" = s.
Proof. induction s as [|c s IH]; simpl; [done | by f_equal]. Qed.

Lemma string_app_assoc (a b c : string) : (a ++ b) ++ c = a ++ (b ++ c).
Proof. induction a as [|x a IH]; simpl; [done | by f_equal]. Qed.

Lemma chars_app (a b : string) :
  list_ascii_of_string (a ++ b)
  = (list_ascii_of_string a ++ list_ascii_of_string b)%list.
Proof. induction a as [|x a IH]; simpl; [done | by f_equal]. Qed.

(** ** [std::getline] against the file format *)

Lemma split_at_first_absent (delim : ascii) (s : string) :
  delim ∉ list_ascii_of_string s ↔ split_at_first delim s = None.
Proof.
  induction s as [|c s IH]; simpl.
  - split; [done | intros _; apply not_elem_of_nil].
  - rewrite not_elem_of_cons. destruct (Ascii.eqb_spec c delim) as [->|Hne].
    + split; [by intros [? _] | done].
    + destruct (split_at_first delim s) as [[b a]|].
      * split; [|done]. intros [_ H]. by apply IH in H.
      * split; [done|]. intros _. split; [done | by apply IH].
Qed.

Lemma split_at_first_app (delim : ascii) (before after : string) :
  delim ∉ list_ascii_of_string before →
  split_at_first delim (before ++ String delim after) = Some (before, after).
Proof.
  induction before as [|c before IH]; simpl; intros Hn.
  - by rewrite Ascii.eqb_refl.
  - apply not_elem_of_cons in Hn as [Hc Hn].
    destruct (Ascii.eqb_spec c delim) as [->|_]; [done|].
    by rewrite IH.
Qed.

Lemma split_at_first_Some (delim : ascii) (s before after : string) :
  split_at_first delim s = Some (before, after) →
  s = before ++ String delim after ∧ delim ∉ list_ascii_of_string before.
Proof.
  revert before. induction s as [|c s IH]; intros before; simpl; [done|].
  destruct (Ascii.eqb_spec c delim) as [->|Hne].
  - intros [= <- <-]. split; [done | apply not_elem_of_nil].
  - destruct (split_at_first delim s) as [[b a]|]; [|done].
    intros [= <- <-]. destruct (IH b eq_refl) as [-> Hn].
    split; [done|]. simpl. by apply not_elem_of_cons.
Qed.

(** Extraction up to a character that the text has: the two sides of its
    first occurrence.  From a text without it: all of it, up to the end. *)
Lemma extract_split (buf : string) (delim : ascii) :
  extract buf delim =
    match split_at_first delim buf with
    | Some (before, after) => (before, after, true)
    | None => (buf, "", false)
    end.
Proof.
  induction buf as [|c buf IH]; simpl; [done|].
  destruct (Ascii.eqb c delim); [done|]. rewrite IH.
  by destruct (split_at_first delim buf) as [[b a]|].
Qed.

(** The lines of a file, one [getline] at a time. *)
Lemma file_lines_split (content : string) :
  file_lines content =
    match split_at_first newline content with
    | Some (line, rest) => line :: file_lines rest
    | None => if bool_decide (content = "") then [] else [content]
    end.
Proof.
  induction content as [|c s IH]; simpl; [done|].
  destruct (Ascii.eqb c newline); [done|]. rewrite IH.
  destruct (split_at_first newline s) as [[l r]|]; [done|].
  by destruct s.
Qed.

Lemma split_at_first_length (delim : ascii) (s before after : string) :
  split_at_first delim s = Some (before, after) →
  String.length after < String.length s.
Proof.
  revert before. induction s as [|c s IH]; intros before; simpl; [done|].
  destruct (Ascii.eqb c delim); [intros [= <- <-]; lia|].
  destruct (split_at_first delim s) as [[b a]|]; [|done].
  intros [= <- <-]. specialize (IH b eq_refl). lia.
Qed.

Lemma apply_lines_entries (lines : list string) (m : gmap string string) :
  foldl apply_line m lines = apply_entries m (omap line_entry lines).
Proof.
  revert m. induction lines as [|l lines IH]; intros m; simpl; [done|].
  rewrite IH. unfold apply_line.
  by destruct (line_entry l) as [[k v]|].
Qed.

(** The two inner [getline]s of [loadSettings] on a line: both succeed
    exactly on a line that has an entry, and then yield its key and its
    value. *)
Lemma getline_key_value (line : string) :
  newline ∉ list_ascii_of_string line →
  let '(iss, key) := getline (istringstream line) "" equals in
  if stream_ok iss then
    let '(iss, value) := getline iss "" newline in
    if stream_ok iss then line_entry line = Some (key, value)
    else line_entry line = None
  else line_entry line = None.
Proof.
  intros Hnl. unfold getline, line_entry. simpl. rewrite extract_split.
  destruct (split_at_first equals line) as [[k v]|] eqn:E.
  - simpl. apply split_at_first_Some in E as [-> _].
    rewrite chars_app in Hnl. simpl in Hnl.
    rewrite not_elem_of_app, not_elem_of_cons in Hnl.
    destruct Hnl as (_ & _ & Hv). apply split_at_first_absent in Hv.
    rewrite extract_split, Hv. unfold stream_ok. simpl.
    by destruct (bool_decide (v = "")).
  - unfold stream_ok. simpl. by destruct (bool_decide (line = "")).
Qed.

Lemma apply_line_None (m : gmap string string) (line : string) :
  line_entry line = None → apply_line m line = m.
Proof. unfold apply_line. by intros ->. Qed.

Lemma apply_line_Some (m : gmap string string) (line key value : string) :
  line_entry line = Some (key, value) →
  apply_line m line = <[key := value]> m.
Proof. unfold apply_line. by intros ->. Qed.

(** The loop of [loadSettings] ends within its bound, and applies the
    lines of the file in order. *)
Lemma read_lines_file_lines (fuel : nat) :
  ∀ (content line : string) (m : gmap string string),
    String.length content < fuel →
    read_lines fuel (istringstream content) line m
    = Some (foldl apply_line m (file_lines content)).
Proof.
  induction fuel as [|fuel IH]; intros content line m Hlen; [lia|].
  rewrite file_lines_split. simpl.
  unfold getline at 1. simpl. rewrite extract_split.
  destruct (split_at_first newline content) as [[l rest]|] eqn:E.
  - pose proof (split_at_first_length _ _ _ _ E) as Hrest.
    apply split_at_first_Some in E as [_ Hl].
    pose proof (getline_key_value l Hl) as Hkv. simpl.
    change (mk_istream rest false false) with (istringstream rest).
    unfold stream_ok in *. simpl.
    destruct (getline (istringstream l) "" equals) as [iss key].
    destruct (failbit iss); simpl in *.
    + rewrite IH by lia. by rewrite (apply_line_None _ _ Hkv).
    + destruct (getline iss "" newline) as [iss' value].
      destruct (failbit iss'); simpl in *; rewrite IH by lia;
        [by rewrite (apply_line_None _ _ Hkv)
        |by rewrite (apply_line_Some _ _ _ _ Hkv)].
  - unfold stream_ok in *. simpl.
    destruct (bool_decide_reflect (content = "")) as [->|Hne]; [done|].
    apply split_at_first_absent in E.
    pose proof (getline_key_value content E) as Hkv.
    unfold stream_ok in *. simpl.
    assert (∀ l m', read_lines fuel (mk_istream "" true false) l m' = Some m')
      as Hend.
    { intros l m'. destruct fuel as [|fuel]; [|done].
      destruct content; simpl in *; [done | lia]. }
    destruct (getline (istringstream content) "" equals) as [iss key].
    destruct (failbit iss); simpl in *.
    + rewrite Hend. by rewrite (apply_line_None _ _ Hkv).
    + destruct (getline iss "" newline) as [iss' value].
      destruct (failbit iss'); simpl in *; rewrite Hend;
        [by rewrite (apply_line_None _ _ Hkv)
        |by rewrite (apply_line_Some _ _ _ _ Hkv)].
Qed.

(** ** The monad *)

Lemma with_mutex_release (w : World) :
  mutex_ (self w) = false → with_mutex false w = w.
Proof. destruct w as [[s m f] d]. simpl. by intros ->. Qed.

(** A member function whose body leaves [mutex_] alone, called from
    outside: the guard is invisible. *)
Lemma lock_guard_free {A} (body : M A) (w : World) r w' :
  mutex_ (self w) = false →
  body (with_mutex true w) = (r, with_mutex true w') →
  lock_guard body w = (r, with_mutex false w').
Proof. unfold lock_guard. intros -> ->. by destruct w' as [[s m f] d]. Qed.

(** ** [loadSettings] *)

Lemma loadSettings_not_opened (filename : string) (w : World) :
  mutex_ (self w) = false →
  ifstream_open (disk w) filename = None →
  loadSettings filename w = (Throws (IOError_open filename), w).
Proof.
  intros Hm Ho. unfold loadSettings.
  rewrite (lock_guard_free _ w (Throws (IOError_open filename)) w Hm).
  - by rewrite with_mutex_release.
  - unfold bind, read_disk. simpl. by rewrite Ho.
Qed.

Lemma loadSettings_opened (filename content : string) (w : World) :
  mutex_ (self w) = false →
  ifstream_open (disk w) filename = Some (istringstream content) →
  loadSettings filename w =
    (Returns tt,
     mk_world (mk_parser (foldl apply_line (settings_ (self w))
                                (file_lines content))
                         false filename)
              (disk w)).
Proof.
  intros Hm Ho. unfold loadSettings, lock_guard. rewrite Hm.
  unfold bind, read_disk, read_self. cbn -[read_lines]. rewrite Ho.
  cbn -[read_lines].
  by rewrite (read_lines_file_lines (S (String.length content))) by lia.
Qed.

Lemma ifstream_open_Some (fs : filesystem) (filename : string) file :
  ifstream_open fs filename = Some file ↔
  filename ≠ "" ∧ ∃ content,
    files fs !! filename = Some content ∧ file = istringstream content.
Proof.
  unfold ifstream_open. destruct (bool_decide_reflect (filename = "")).
  - split; [done | by intros [? _]].
  - destruct (files fs !! filename) as [c|]; simpl.
    + split; [intros [= <-]; eauto | by intros (_ & ? & [= <-] & ->)].
    + split; [done | by intros (_ & ? & ? & _)].
Qed.

(** ** Entries applied in order: the last one for a key wins *)

Lemma apply_entries_snoc m (es : list (string * string)) e :
  apply_entries m (es ++ [e]) = <[e.1 := e.2]> (apply_entries m es).
Proof. unfold apply_entries. by rewrite foldl_app. Qed.

Lemma last_binding_snoc key (es : list (string * string)) e :
  last_binding key (es ++ [e]) =
    if decide (e.1 = key) then Some e.2 else last_binding key es.
Proof.
  unfold last_binding. rewrite filter_app, filter_cons, filter_nil.
  destruct (decide (e.1 = key)).
  - by rewrite last_snoc.
  - by rewrite app_nil_r.
Qed.

Lemma apply_entries_lookup (es : list (string * string)) m key :
  apply_entries m es !! key =
    match last_binding key es with
    | Some value => Some value
    | None => m !! key
    end.
Proof.
  induction es as [|e es IH] using rev_ind; [done|].
  rewrite apply_entries_snoc, last_binding_snoc, lookup_insert.
  destruct (decide (e.1 = key)); done.
Qed.

Lemma apply_entries_union (es : list (string * string)) m :
  apply_entries m es = apply_entries ∅ es ∪ m.
Proof.
  apply map_eq. intros key.
  rewrite lookup_union, !apply_entries_lookup, lookup_empty.
  destruct (last_binding key es); [|by rewrite (left_id None _)].
  by destruct (m !! key).
Qed.

Lemma line_entry_Some (line key value : string) :
  line_entry line = Some (key, value) ↔
  (line = key ++ "=" ++ value)
  ∧ (equals ∉ list_ascii_of_string key) ∧ value ≠ "".
Proof.
  unfold line_entry. split.
  - destruct (split_at_first equals line) as [[k v]|] eqn:E; [|done].
    destruct (bool_decide_reflect (v = "")); [done|].
    intros [= <- <-]. by apply split_at_first_Some in E as [-> ?].
  - intros (-> & Hk & Hv). simpl. rewrite split_at_first_app by done.
    by rewrite bool_decide_eq_false_2.
Qed.

Lemma line_entry_None (line : string) :
  line_entry line = None ↔
  equals ∉ list_ascii_of_string line
  ∨ ∃ key, (line = key ++ "=") ∧ equals ∉ list_ascii_of_string key.
Proof.
  unfold line_entry. split.
  - destruct (split_at_first equals line) as [[k v]|] eqn:E.
    + destruct (bool_decide_reflect (v = "")) as [->|]; [|done].
      intros _. right. exists k. by apply split_at_first_Some in E.
    + intros _. left. by apply split_at_first_absent.
  - intros [Hn|(key & -> & Hn)].
    + apply split_at_first_absent in Hn. by rewrite Hn.
    + simpl. by rewrite split_at_first_app.
Qed.

Lemma loadSettings_lookup (filename content : string) (w : World) :
  mutex_ (self w) = false →
  filename ≠ "" →
  files (disk w) !! filename = Some content →
  ∃ w', loadSettings filename w = (Returns tt, w')
    ∧ settings_ (self w')
      = apply_entries (settings_ (self w)) (file_entries content)
    ∧ mutex_ (self w') = false
    ∧ currentFilename_ (self w') = filename
    ∧ disk w' = disk w.
Proof.
  intros Hm Hf Hc. eexists. split.
  - apply loadSettings_opened; [done|].
    apply ifstream_open_Some. eauto.
  - simpl. by rewrite apply_lines_entries.
Qed.

(** A [loadSettings] that returns has opened its file. *)
Lemma loadSettings_returns (filename : string) (w w' : World) :
  mutex_ (self w) = false →
  loadSettings filename w = (Returns tt, w') →
  filename ≠ ""
  ∧ ∃ content,
      files (disk w) !! filename = Some content
      ∧ settings_ (self w')
        = apply_entries (settings_ (self w)) (file_entries content)
      ∧ mutex_ (self w') = false
      ∧ currentFilename_ (self w') = filename
      ∧ disk w' = disk w.
Proof.
  intros Hm Hload.
  destruct (ifstream_open (disk w) filename) as [file|] eqn:Ho.
  - apply ifstream_open_Some in Ho as (Hf & content & Hc & ->).
    destruct (loadSettings_lookup filename content w Hm Hf Hc)
      as (w1 & Hload1 & Hrest).
    rewrite Hload in Hload1. injection Hload1 as <-.
    split; [done|]. by exists content.
  - by rewrite loadSettings_not_opened in Hload.
Qed.



(** ** Claims about [loadSettings] *)

(** C5.  Line parsing on load.  A file that can be opened is loaded
    without error, and afterwards every key has the value of the last
    line of the file that gives it one, or the value it had before when
    no line does.  A line gives [key] the value [value] exactly when it
    is [key], the first [=] of the line, and a non-empty [value] (which
    may contain [=]); a line without [=], or with nothing after its first
    [=], gives nothing.  The file ["a=1\nbadline\nb=2=3\n"] loaded into
    the empty store yields exactly [{a: "1", b: "2=3"}]. *)
Theorem loadSettings_line_format :
  (∀ (w : World) (filename content : string),
     mutex_ (self w) = false →
     filename ≠ "" →
     files (disk w) !! filename = Some content →
     ∃ w', loadSettings filename w = (Returns tt, w')
       ∧ ∀ key, settings_ (self w') !! key =
           match last_binding key (omap line_entry (file_lines content)) with
           | Some value => Some value
           | None => settings_ (self w) !! key
           end)
  ∧ (∀ line key value,
       line_entry line = Some (key, value) ↔
       (line = key ++ "=" ++ value)
       ∧ (equals ∉ list_ascii_of_string key) ∧ value ≠ "")
  ∧ (∀ line,
       line_entry line = None ↔
       equals ∉ list_ascii_of_string line
       ∨ ∃ key, (line = key ++ "=") ∧ equals ∉ list_ascii_of_string key)
  ∧ (let content := "a=1" ++ nl ++ "badline" ++ nl ++ "b=2=3" ++ nl in
     let fs := mk_fs {["settings.txt" := content]} ∅ in
     loadSettings "settings.txt" (mk_world getInstance fs)
     = (Returns tt,
        mk_world (mk_parser (<["a" := "1"]> {["b" := "2=3"]}) false
                            "settings.txt") fs)).
Proof.
  split; [|split; [|split]].
  - intros w filename content Hm Hf Hc.
    destruct (loadSettings_lookup filename content w Hm Hf Hc)
      as (w' & Hload & Hs & _).
    exists w'. split; [done|]. intros key.
    rewrite Hs. apply apply_entries_lookup.
  - apply line_entry_Some.
  - apply line_entry_None.
  - vm_compute. reflexivity.
Qed.

(** C1, as the code has it.  After a successful [loadSettings(path)] the
    mapping is the one parsed from the file laid over the mapping from
    before the call: a key of the file has the file's value, every other
    key keeps its entry (the prior mapping is merged into, not replaced),
    and [currentFilename_] is [path]. *)
Theorem loadSettings_merges (w w' : World) (path : string) :
  mutex_ (self w) = false →
  loadSettings path w = (Returns tt, w') →
  ∃ content,
    files (disk w) !! path = Some content
    ∧ settings_ (self w') = parsed_pairs content ∪ settings_ (self w)
    ∧ currentFilename_ (self w') = path.
Proof.
  intros Hm Hload.
  destruct (loadSettings_returns path w w' Hm Hload)
    as (_ & content & Hc & Hs & _ & Hf & _).
  exists content. split; [done|]. split; [|done].
  rewrite Hs. apply apply_entries_union.
Qed.

(** ** [getValue] and [setValue] *)

Lemma getValue_found (key value : string) (w : World) :
  mutex_ (self w) = false →
  settings_ (self w) !! key = Some value →
  getValue key w = (Returns value, w).
Proof.
  intros Hm Hk. unfold getValue, lock_guard, bind, read_self, ret.
  rewrite Hm. simpl. rewrite Hk. simpl. by rewrite <- Hm; destruct w as [[] ?].
Qed.

Lemma getValue_missing (key : string) (w : World) :
  mutex_ (self w) = false →
  settings_ (self w) !! key = None →
  getValue key w = (Throws (NotFoundError key), w).
Proof.
  intros Hm Hk. unfold getValue, lock_guard, bind, read_self, throw.
  rewrite Hm. simpl. rewrite Hk. simpl. by rewrite <- Hm; destruct w as [[] ?].
Qed.

Lemma setValue_returns (key value : string) (w : World) :
  mutex_ (self w) = false →
  setValue key value w
  = (Returns tt, with_settings (<[key := value]> (settings_ (self w))) w).
Proof.
  intros Hm. unfold setValue, lock_guard, bind, read_self, write_settings.
  rewrite Hm. simpl. unfold with_settings. simpl. by rewrite Hm.
Qed.

Lemma setValue_getValue (key value : string) (w : World) :
  mutex_ (self w) = false →
  ∃ w', setValue key value w = (Returns tt, w')
    ∧ getValue key w' = (Returns value, w')
    ∧ settings_ (self w') = <[key := value]> (settings_ (self w))
    ∧ mutex_ (self w') = false
    ∧ currentFilename_ (self w') = currentFilename_ (self w)
    ∧ disk w' = disk w.
Proof.
  intros Hm. eexists. split; [by apply setValue_returns|].
  split; [|done]. apply getValue_found; simpl; [done|].
  apply lookup_insert_eq.
Qed.

(** C9.  [setValue(k, v)] never raises; after it [getValue(k)] returns
    [v]; the entry for [k] is inserted when absent and overwritten when
    present, and every other entry, the current file name and the disk are
    as before. *)
Theorem setValue_then_getValue (w : World) (k v : string) :
  mutex_ (self w) = false →
  k ≠ "" →
  ∃ w', setValue k v w = (Returns tt, w')
    ∧ getValue k w' = (Returns v, w')
    ∧ settings_ (self w') !! k = Some v
    ∧ (∀ k', k' ≠ k → settings_ (self w') !! k' = settings_ (self w) !! k')
    ∧ currentFilename_ (self w') = currentFilename_ (self w)
    ∧ disk w' = disk w.
Proof.
  intros Hm _.
  destruct (setValue_getValue k v w Hm) as (w' & Hset & Hget & Hs & _ & Hf & Hd).
  exists w'. rewrite Hs. split_and!; [done|done| |
    |done|done].
  - apply lookup_insert_eq.
  - intros k' Hk'. by apply lookup_insert_ne.
Qed.

(** C6.  Boolean coercion.  For a key that is present,
    [getValueAs<bool>] returns, and never throws: [true] exactly when the
    stored string is ["true"] or ["1"], [false] for every other string.
    After [setValueAs<bool>(k, true)] it returns [true], after
    [setValueAs<bool>(k, false)] it returns [false]. *)
Theorem getValueAs_bool_total (w : World) (key : string) :
  mutex_ (self w) = false →
  (∀ value, settings_ (self w) !! key = Some value →
     getValueAs_bool key w
     = (Returns (bool_decide (value = "true" ∨ value = "1")), w))
  ∧ (∃ w', setValueAs_bool key true w = (Returns tt, w')
       ∧ getValueAs_bool key w' = (Returns true, w'))
  ∧ (∃ w', setValueAs_bool key false w = (Returns tt, w')
       ∧ getValueAs_bool key w' = (Returns false, w')).
Proof.
  intros Hm.
  assert (∀ w value, mutex_ (self w) = false →
            settings_ (self w) !! key = Some value →
            getValueAs_bool key w
            = (Returns (bool_decide (value = "true" ∨ value = "1")), w)) as Hget.
  { clear. intros w value Hm Hk. unfold getValueAs_bool, bind.
    rewrite (getValue_found key value w Hm Hk). unfold ret. do 2 f_equal.
    destruct (String.eqb_spec value "true") as [->|Ht]; [done|].
    destruct (String.eqb_spec value "1") as [->|H1]; [done|].
    simpl. symmetry. apply bool_decide_eq_false_2. by intros [?|?]. }
  split; [by intros value; apply Hget|].
  unfold setValueAs_bool. split.
  - destruct (setValue_getValue key "true" w Hm) as (w' & Hset & _ & Hs & Hm' & _).
    exists w'. split; [done|].
    rewrite (Hget w' "true" Hm'); [done|]. rewrite Hs. apply lookup_insert_eq.
  - destruct (setValue_getValue key "false" w Hm) as (w' & Hset & _ & Hs & Hm' & _).
    exists w'. split; [done|].
    rewrite (Hget w' "false" Hm'); [done|]. rewrite Hs. apply lookup_insert_eq.
Qed.


(** ** [saveSettingsAs], [saveSettings] and [createFileIfNotExists] *)

Lemma ofstream_write_insert (fm : gmap string string) (d : gset string)
    (filename old text : string) :
  ofstream_write (mk_fs (<[filename := old]> fm) d) filename text
  = mk_fs (<[filename := old ++ text]> fm) d.
Proof.
  unfold ofstream_write. simpl.
  by rewrite lookup_insert_eq, insert_insert_eq.
Qed.

(** The loop of [saveSettingsAs] appends the text of its entries. *)
Lemma foldl_write_setting (filename : string) (fm : gmap string string)
    (d : gset string) (entries : list (string * string)) :
  ∀ old,
    foldl (write_setting filename) (mk_fs (<[filename := old]> fm) d) entries
    = mk_fs (<[filename := old ++ settings_text entries]> fm) d.
Proof.
  induction entries as [|e entries IH]; intros old; simpl.
  - by rewrite string_app_nil_r.
  - unfold write_setting at 2. rewrite !ofstream_write_insert, IH.
    by rewrite !string_app_assoc.
Qed.

Lemma ofstream_open_Some (fs : filesystem) (filename : string) file :
  ofstream_open fs filename = Some file ↔
  filename ≠ "" ∧ (filename ∉ denied fs)
  ∧ file = mk_fs (<[filename := ""]> (files fs)) (denied fs).
Proof.
  unfold ofstream_open.
  destruct (bool_decide_reflect (filename = "")); [by split; [|intros []]|].
  destruct (bool_decide_reflect (filename ∈ denied fs)).
  - split; [done | by intros (_ & ? & _)].
  - split; [by intros [= <-] | by intros (_ & _ & ->)].
Qed.

Lemma saveSettingsAs_not_opened (filename : string) (w : World) :
  mutex_ (self w) = false →
  ofstream_open (disk w) filename = None →
  saveSettingsAs filename w = (Throws (IOError_open filename), w).
Proof.
  intros Hm Ho. unfold saveSettingsAs, lock_guard, bind, read_disk, throw.
  rewrite Hm. simpl. rewrite Ho. simpl. by rewrite <- Hm; destruct w as [[] ?].
Qed.

Lemma saveSettingsAs_opened (filename : string) (w : World) file :
  mutex_ (self w) = false →
  ofstream_open (disk w) filename = Some file →
  saveSettingsAs filename w
  = (Returns tt,
     with_disk (mk_fs (<[filename :=
                           settings_text (iteration (settings_ (self w)))]>
                         (files (disk w)))
                      (denied (disk w))) w).
Proof.
  intros Hm Ho. unfold saveSettingsAs, lock_guard, bind, read_disk, read_self.
  rewrite Hm. simpl. rewrite Ho. simpl.
  apply ofstream_open_Some in Ho as (_ & _ & ->).
  rewrite foldl_write_setting. simpl. unfold with_disk. simpl.
  by rewrite <- Hm; destruct w as [[] ?].
Qed.

Lemma saveSettingsAs_locked (filename : string) (w : World) :
  mutex_ (self w) = true → saveSettingsAs filename w = (Undefined, w).
Proof. intros Hm. unfold saveSettingsAs, lock_guard. by rewrite Hm. Qed.

Lemma saveSettings_no_filename (w : World) :
  mutex_ (self w) = false →
  currentFilename_ (self w) = "" →
  saveSettings w = (Throws StateError, w).
Proof.
  destruct w as [[s m f] d]. simpl. intros -> ->.
  by unfold saveSettings, saveSettings_locked, lock_guard, bind, read_self,
    throw.
Qed.

(** With a file name set, [saveSettings] calls [saveSettingsAs] while it
    holds [mutex_]: the second [lock_guard] locks a mutex its thread owns. *)
Lemma saveSettings_relocks (w : World) :
  mutex_ (self w) = false →
  currentFilename_ (self w) ≠ "" →
  saveSettings w = lock_guard (saveSettingsAs (currentFilename_ (self w))) w
  ∧ saveSettings w = (Undefined, w).
Proof.
  destruct w as [[s m f] d]. simpl. intros -> Hf.
  assert (saveSettings (mk_world (mk_parser s false f) d)
          = (Undefined, mk_world (mk_parser s false f) d)) as Hsave.
  { unfold saveSettings, saveSettings_locked, lock_guard at 1, bind,
      read_self. simpl.
    rewrite bool_decide_eq_false_2 by done.
    by rewrite saveSettingsAs_locked. }
  split; [|done]. rewrite Hsave.
  unfold lock_guard at 1. cbn [mutex_ self].
  by rewrite saveSettingsAs_locked.
Qed.

Lemma createFileIfNotExists_cases (filename : string) (w : World) :
  createFileIfNotExists filename w = (Returns tt, w)
  ∨ createFileIfNotExists filename w = (Throws (IOError_create filename), w)
  ∨ ∃ fs, createFileIfNotExists filename w = (Returns tt, with_disk fs w).
Proof.
  unfold createFileIfNotExists, bind, read_disk. simpl.
  destruct (exists_file (disk w) filename); [by left|].
  destruct (ofstream_open (disk w) filename) as [fs|]; [|by right; left].
  right; right. by exists fs.
Qed.

(** ** Calls from outside *)

(** What a call made with the mutex free does to the world: the mutex is
    free again afterwards, a call that throws changes nothing, and the
    current file name changes only in a [loadSettings] that returns. *)
Lemma perform_effect (c : call) (w w' : World) (r : outcome unit) :
  mutex_ (self w) = false →
  perform c w = (r, w') →
  mutex_ (self w') = false
  ∧ (is_throw r = true → w' = w)
  ∧ (defined r = true →
     currentFilename_ (self w') =
       match c, r with
       | call_loadSettings filename, Returns _ => filename
       | _, _ => currentFilename_ (self w)
       end)
  ∧ (∀ filename, c = call_loadSettings filename → r = Returns tt →
     filename ≠ "").
Proof.
  intros Hm H.
  assert (∀ key, void (getValue key) w = (Returns tt, w)
                 ∨ void (getValue key) w = (Throws (NotFoundError key), w))
    as Hget.
  { intros key. unfold void, bind.
    destruct (settings_ (self w) !! key) as [v|] eqn:E.
    - left. by rewrite (getValue_found key v w Hm E).
    - right. by rewrite (getValue_missing key w Hm E). }
  destruct c as [f|f|k|k|k|k|k v|k v|k v|k v| |f]; simpl in H.
  - destruct (createFileIfNotExists_cases f w) as [E|[E|[fs E]]];
      rewrite E in H; injection H as <- <-; by split_and!.
  - destruct (ifstream_open (disk w) f) as [file|] eqn:Ho.
    + apply ifstream_open_Some in Ho as (Hf & content & Hc & _).
      destruct (loadSettings_lookup f content w Hm Hf Hc)
        as (w1 & E & _ & Hm1 & Hf1 & _).
      rewrite E in H. injection H as <- <-. split_and!; try done.
      by intros ? [= <-].
    + rewrite (loadSettings_not_opened f w Hm Ho) in H.
      injection H as <- <-. by split_and!.
  - destruct (Hget k) as [E|E]; rewrite E in H; injection H as <- <-;
      by split_and!.
  - unfold void, getValueAs_int, bind in H.
    destruct (settings_ (self w) !! k) as [v|] eqn:E.
    + rewrite (getValue_found k v w Hm E) in H. unfold lift_outcome, ret in H.
      destruct (stoi v); injection H as <- <-; by split_and!.
    + rewrite (getValue_missing k w Hm E) in H.
      injection H as <- <-. by split_and!.
  - unfold void, getValueAs_double, bind in H.
    destruct (settings_ (self w) !! k) as [v|] eqn:E.
    + rewrite (getValue_found k v w Hm E) in H. unfold lift_outcome, ret in H.
      destruct (stod v); injection H as <- <-; by split_and!.
    + rewrite (getValue_missing k w Hm E) in H.
      injection H as <- <-. by split_and!.
  - unfold void, getValueAs_bool, bind in H.
    destruct (settings_ (self w) !! k) as [v|] eqn:E.
    + rewrite (getValue_found k v w Hm E) in H. unfold ret in H.
      injection H as <- <-. by split_and!.
    + rewrite (getValue_missing k w Hm E) in H.
      injection H as <- <-. by split_and!.
  - rewrite (setValue_returns k v w Hm) in H. injection H as <- <-.
    by split_and!.
  - unfold setValueAs_int in H. rewrite (setValue_returns k _ w Hm) in H.
    injection H as <- <-. by split_and!.
  - unfold setValueAs_double in H. rewrite (setValue_returns k _ w Hm) in H.
    injection H as <- <-. by split_and!.
  - unfold setValueAs_bool in H. rewrite (setValue_returns k _ w Hm) in H.
    injection H as <- <-. by split_and!.
  - destruct (decide (currentFilename_ (self w) = "")) as [Hf|Hf].
    + rewrite (saveSettings_no_filename w Hm Hf) in H.
      injection H as <- <-. by split_and!.
    + destruct (saveSettings_relocks w Hm Hf) as [_ E].
      rewrite E in H. injection H as <- <-. by split_and!.
  - destruct (ofstream_open (disk w) f) as [file|] eqn:Ho.
    + rewrite (saveSettingsAs_opened f w file Hm Ho) in H.
      injection H as <- <-. by split_and!.
    + rewrite (saveSettingsAs_not_opened f w Hm Ho) in H.
      injection H as <- <-. by split_and!.
Qed.

(** C7.  Error atomicity.  A call that throws leaves the whole world as
    it was: the mapping, the current file name, and the disk.  This covers
    [getValue] and the [getValueAs] on a missing key or a failed
    conversion, and a [loadSettings] or [saveSettingsAs] whose file cannot
    be opened. *)
Theorem throw_changes_nothing (c : call) (w w' : World) (e : exn) :
  mutex_ (self w) = false →
  perform c w = (Throws e, w') →
  settings_ (self w') = settings_ (self w)
  ∧ currentFilename_ (self w') = currentFilename_ (self w)
  ∧ w' = w.
Proof.
  intros Hm H. destruct (perform_effect c w w' _ Hm H) as (_ & Hw & _).
  by rewrite Hw.
Qed.

(** Along a run without undefined behaviour the mutex is free between the
    calls, and a file name is set exactly when it was set before or a
    [loadSettings] of the run has returned. *)
Lemma run_currentFilename (calls : list call) :
  ∀ (w w' : World) (results : list (outcome unit)),
    mutex_ (self w) = false →
    run calls w = (results, w') →
    forallb defined results = true →
    mutex_ (self w') = false
    ∧ (currentFilename_ (self w') ≠ "" ↔
       currentFilename_ (self w) ≠ "" ∨ load_succeeded calls results = true).
Proof.
  induction calls as [|c calls IH]; intros w w' results Hm Hrun Hdef.
  - injection Hrun as <- <-. split; [done|]. unfold load_succeeded. simpl.
    split; [by left | by intros [?|?]].
  - simpl in Hrun. destruct (perform c w) as [r w1] eqn:Hc.
    destruct (perform_effect c w w1 r Hm Hc) as (Hm1 & _ & Hf & Hne).
    assert (defined r = true ∧
            ∃ rs, results = r :: rs ∧ run calls w1 = (rs, w')) as (Hr & rs & -> & Hrs).
    { destruct r; destruct (run calls w1) as [rs w2];
        injection Hrun as <- <-; simpl in Hdef; try done; eauto. }
    simpl in Hdef. apply andb_true_iff in Hdef as [_ Hdef].
    destruct (IH w1 w' rs Hm1 Hrs Hdef) as [Hm' Hiff].
    split; [done|]. rewrite Hiff. specialize (Hf Hr).
    unfold load_succeeded. simpl. fold (load_succeeded calls rs).
    rewrite orb_true_iff.
    destruct c; destruct r as [[]| | |]; simpl in *; try done;
      rewrite Hf; try (intuition congruence).
    specialize (Hne filename eq_refl eq_refl). tauto.
Qed.

(** C4, as the code has it.  In any run of calls on a fresh store,
    [saveSettings] throws the state error exactly when no [loadSettings]
    has returned before it.  [saveSettingsAs] sets no file name: after a
    [saveSettingsAs] that returns, on a store with no load before, the
    next [saveSettings] throws the state error. *)
Theorem saveSettings_StateError (fs : filesystem) :
  (∀ (calls : list call) (results : list (outcome unit)) (w : World),
     run calls (mk_world getInstance fs) = (results, w) →
     forallb defined results = true →
     (saveSettings w = (Throws StateError, w) ↔
      load_succeeded calls results = false))
  ∧ (∀ p w',
       saveSettingsAs p (mk_world getInstance fs) = (Returns tt, w') →
       saveSettings w' = (Throws StateError, w')).
Proof.
  split.
  - intros calls results w Hrun Hdef.
    destruct (run_currentFilename calls (mk_world getInstance fs) w results
                eq_refl Hrun Hdef) as [Hm Hiff].
    simpl in Hiff.
    destruct (decide (currentFilename_ (self w) = "")) as [Hf|Hf].
    + split; [|by intros; apply saveSettings_no_filename].
      intros _. apply not_true_is_false. intros Hl. rewrite Hf in Hiff.
      by apply (proj2 Hiff); [right|].
    + destruct (saveSettings_relocks w Hm Hf) as [_ ->]. split; [done|].
      intros Hl. apply Hiff in Hf as [?|Hf]; [done|]. by rewrite Hl in Hf.
  - intros p w' Hsave. set (w := mk_world getInstance fs) in *.
    assert (mutex_ (self w) = false) as Hm by done.
    destruct (ofstream_open (disk w) p) as [file|] eqn:Ho.
    + rewrite (saveSettingsAs_opened p w file Hm Ho) in Hsave.
      injection Hsave as <-. by apply saveSettings_no_filename.
    + by rewrite (saveSettingsAs_not_opened p w Hm Ho) in Hsave.
Qed.

(** C8.  Frame property of [saveSettingsAs].  A [saveSettingsAs(p)] that
    returns changes neither the mapping nor [currentFilename_].  So when
    the store was loaded from [q] before, the file name is still [q], and a
    following [saveSettings] does not throw the state error: what it runs
    under its lock is the call [saveSettingsAs(q)], not [saveSettingsAs(p)].
    (Made while [mutex_] is held, that call is undefined behaviour in this
    model, so that [saveSettings] itself writes no file.) *)
Theorem saveSettingsAs_frame (w w' : World) (p : string) :
  mutex_ (self w) = false →
  saveSettingsAs p w = (Returns tt, w') →
  settings_ (self w') = settings_ (self w)
  ∧ currentFilename_ (self w') = currentFilename_ (self w)
  ∧ ∀ w0 q,
      mutex_ (self w0) = false →
      loadSettings q w0 = (Returns tt, w) →
      currentFilename_ (self w') = q
      ∧ saveSettings w' ≠ (Throws StateError, w')
      ∧ saveSettings w' = lock_guard (saveSettingsAs q) w'
      ∧ ∀ u, currentFilename_ (self u) = currentFilename_ (self w') →
             saveSettings_locked u = saveSettingsAs q u.
Proof.
  intros Hm Hsave.
  destruct (ofstream_open (disk w) p) as [file|] eqn:Ho.
  - rewrite (saveSettingsAs_opened p w file Hm Ho) in Hsave.
    injection Hsave as <-. split; [done|]. split; [done|].
    intros w0 q Hm0 Hload. simpl.
    destruct (loadSettings_returns q w0 w Hm0 Hload)
      as (Hq & _ & _ & _ & _ & Hf & _).
    split; [done|].
    match goal with |- context [saveSettings ?x] => set (w1 := x) end.
    assert (currentFilename_ (self w1) = q) as Hf1 by done.
    destruct (saveSettings_relocks w1) as [E1 E2]; [done | by rewrite Hf1|].
    rewrite Hf1 in E1. split; [by rewrite E2|]. split; [done|].
    intros u Hu. unfold saveSettings_locked, bind, read_self.
    rewrite Hu, Hf. by rewrite bool_decide_eq_false_2.
  - by rewrite (saveSettingsAs_not_opened p w Hm Ho) in Hsave.
Qed.

(** ** Writing a mapping and reading it back *)

Lemma file_lines_cons (line rest : string) :
  newline ∉ list_ascii_of_string line →
  file_lines (line ++ String newline rest) = line :: file_lines rest.
Proof.
  intros Hl. rewrite file_lines_split. by rewrite split_at_first_app.
Qed.

(** The lines of a written file are its entries; on reading, those
    without a value are dropped. *)
Lemma file_entries_settings_text (entries : list (string * string)) :
  Forall (λ e, plain e.1 ∧ plain e.2) entries →
  file_entries (settings_text entries) = filter (λ e, e.2 ≠ "") entries.
Proof.
  unfold file_entries.
  induction 1 as [|[k v] entries [[Hke Hkn] [_ Hvn]] _ IH]; [done|].
  simpl in *.
  replace (k ++ String "=" (v ++ String newline (settings_text entries)))
    with ((k ++ String "=" v) ++ String newline (settings_text entries))
    by (by rewrite string_app_assoc).
  rewrite file_lines_cons.
  - cbn [omap list_omap]. fold (omap (M:=list) line_entry).
    rewrite IH, filter_cons. simpl.
    destruct (decide (v ≠ "")) as [Hv|Hv].
    + assert (line_entry (k ++ "=" ++ v) = Some (k, v)) as Hl
        by (by apply line_entry_Some).
      simpl in Hl. by rewrite Hl.
    + apply dec_stable in Hv as ->.
      assert (line_entry (k ++ "=") = None) as Hl
        by (apply line_entry_None; eauto).
      simpl in Hl. by rewrite Hl.
  - rewrite !chars_app. simpl.
    rewrite !not_elem_of_app, not_elem_of_cons. split_and!; done.
Qed.

Lemma last_binding_NoDup (es : list (string * string)) key value :
  NoDup es.*1 → last_binding key es = Some value ↔ (key, value) ∈ es.
Proof.
  induction es as [|[k v] es IH] using rev_ind; intros Hnd.
  - split; [done | by intros ?%elem_of_nil].
  - rewrite fmap_app in Hnd. apply NoDup_app in Hnd as (Hes & Hdisj & _).
    rewrite last_binding_snoc, elem_of_app, list_elem_of_singleton. simpl.
    destruct (decide (k = key)) as [<-|Hne].
    + split.
      * intros [= <-]. by right.
      * intros [Hin|[= <-]]; [|done]. exfalso. apply (Hdisj k).
        -- apply list_elem_of_fmap. by exists (k, value).
        -- simpl. by apply list_elem_of_singleton.
    + rewrite (IH Hes). split; [by left|]. by intros [?|[= <- <-]].
Qed.

Lemma apply_entries_map (M : gmap string string)
    (es : list (string * string)) :
  es ≡ₚ map_to_list M →
  apply_entries ∅ (filter (λ e, e.2 ≠ "") es) = filter (λ e, e.2 ≠ "") M.
Proof.
  intros Hperm. apply map_eq. intros key. apply option_eq. intros value.
  rewrite apply_entries_lookup, lookup_empty, map_lookup_filter_Some.
  assert (NoDup (filter (λ e : string * string, e.2 ≠ "") es).*1) as Hnd.
  { eapply sublist_NoDup; [|apply fmap_sublist, sublist_filter].
    rewrite Hperm. apply NoDup_fst_map_to_list. }
  pose proof (last_binding_NoDup _ key value Hnd) as Hlast.
  assert ((key, value) ∈ es ↔ M !! key = Some value) as Hin
    by (rewrite Hperm; apply elem_of_map_to_list).
  rewrite list_elem_of_filter, Hin in Hlast.
  simpl in Hlast. rewrite <- (and_comm (value ≠ "")), <- Hlast.
  by destruct (last_binding key _).
Qed.

(** C2, as the code has it.  Round trip.  Let the keys and values of the
    mapping M contain no [=] and no newline.  Writing M with
    [saveSettingsAs(p)] and then loading [p] into a fresh store yields M
    without its entries whose value is the empty string, whatever the order
    in which the map was iterated; so it yields M exactly when no value of
    M is empty. *)
Theorem save_then_load (w w1 : World) (p : string) :
  mutex_ (self w) = false →
  (∀ k v, settings_ (self w) !! k = Some v → plain k ∧ plain v) →
  saveSettingsAs p w = (Returns tt, w1) →
  ∃ w2, loadSettings p (mk_world getInstance (disk w1)) = (Returns tt, w2)
    ∧ settings_ (self w2) = filter (λ e, e.2 ≠ "") (settings_ (self w))
    ∧ (settings_ (self w2) = settings_ (self w) ↔
       ∀ k v, settings_ (self w) !! k = Some v → v ≠ "").
Proof.
  intros Hm Hplain Hsave.
  destruct (ofstream_open (disk w) p) as [file|] eqn:Ho;
    [|by rewrite (saveSettingsAs_not_opened p w Hm Ho) in Hsave].
  rewrite (saveSettingsAs_opened p w file Hm Ho) in Hsave.
  injection Hsave as <-. apply ofstream_open_Some in Ho as (Hp & _ & _).
  simpl.
  set (content := settings_text (iteration (settings_ (self w)))).
  set (fs1 := mk_fs (<[p := content]> (files (disk w))) (denied (disk w))).
  destruct (loadSettings_lookup p content (mk_world getInstance fs1))
    as (w2 & Hload & Hs & _); [done | done | apply lookup_insert_eq |].
  exists w2. split; [exact Hload|]. simpl in Hs.
  assert (settings_ (self w2)
          = filter (λ e, e.2 ≠ "") (settings_ (self w))) as Hs2.
  { rewrite Hs. unfold content. rewrite file_entries_settings_text.
    - by apply apply_entries_map.
    - apply Forall_forall. intros [k v] Hin. rewrite iteration_perm in Hin.
      apply elem_of_map_to_list in Hin. by apply Hplain. }
  split; [done|]. rewrite Hs2. split.
  - intros Heq k v Hk. rewrite <- Heq in Hk.
    by apply map_lookup_filter_Some in Hk as [_ ?].
  - intros Hne. apply map_filter_id. intros k v Hk. by apply (Hne k).
Qed.

(** ** [std::stoi] *)

#[local] Arguments isdigit : simpl never.
#[local] Arguments isspace : simpl never.
#[local] Arguments digit_value : simpl never.

Lemma skip_spaces_app (ws t : string) :
  all_spaces ws = true → skip_spaces (ws ++ t) = skip_spaces t.
Proof.
  unfold all_spaces. induction ws as [|c ws IH]; simpl; [done|].
  intros [Hc Hws]%andb_true_iff. rewrite Hc. by apply IH.
Qed.

Lemma skip_spaces_decomp (s : string) :
  ∃ ws, s = ws ++ skip_spaces s ∧ all_spaces ws = true.
Proof.
  induction s as [|c s (ws & Hs & Hws)]; simpl.
  - by exists "".
  - destruct (isspace c) eqn:Hc.
    + exists (String c ws). simpl. split; [by f_equal|].
      unfold all_spaces in *. simpl. by rewrite Hc.
    + by exists "".
Qed.

Lemma isdigit_not_space (c : ascii) : isdigit c = true → isspace c = false.
Proof.
  unfold isdigit, isspace. intros [H1 H2]%andb_true_iff.
  apply N.leb_le in H1. apply orb_false_iff. split.
  - apply N.eqb_neq. lia.
  - apply andb_false_iff. right. apply N.leb_gt. lia.
Qed.

Lemma scan_digits_app (ds rest : string) :
  all_digits ds = true →
  starts_with_digit rest = false →
  ∀ acc, scan_digits acc (ds ++ rest)
         = (fold_left (λ acc c, 10 * acc + digit_value c)%Z
                      (list_ascii_of_string ds) acc,
            String.length ds).
Proof.
  unfold all_digits. intros Hds Hrest.
  induction ds as [|c ds IH]; intros acc; simpl in *.
  - destruct rest as [|c rest]; [done|]. simpl in *. by rewrite Hrest.
  - apply andb_true_iff in Hds as [Hc Hds]. rewrite Hc, (IH Hds). done.
Qed.

Lemma scan_digits_decomp (s : string) :
  ∀ acc, ∃ ds rest,
    s = ds ++ rest ∧ all_digits ds = true ∧ starts_with_digit rest = false
    ∧ (scan_digits acc s).2 = String.length ds.
Proof.
  unfold all_digits.
  induction s as [|c s IH]; intros acc; simpl.
  - by exists "", "".
  - destruct (isdigit c) eqn:Hc.
    + destruct (IH (10 * acc + digit_value c)%Z) as (ds & rest & -> & Hds & Hr & Hn).
      exists (String c ds), rest. simpl. rewrite Hc.
      destruct (scan_digits _ _) as [v n]. simpl in *. by rewrite Hn.
    + exists "", (String c s). simpl. by rewrite Hc.
Qed.

(** A numeral is a sign, or none, and a run of digits that is not empty. *)
Lemma base10_numeral_cases (num : string) :
  base10_numeral num = true →
  ∃ ds, ds ≠ "" ∧ all_digits ds = true
    ∧ ((num = String "-" ds ∧ read_sign num = (true, ds)
        ∧ numeral_value num = (- digits_value ds)%Z)
       ∨ (read_sign num = (false, ds) ∧ numeral_value num = digits_value ds
          ∧ (num = String "+" ds ∨ num = ds))).
Proof.
  destruct num as [|c ds]; [done|].
  destruct (decide (c = "-"%char)) as [->|Hm].
  { simpl. intros [Hne Hds]%andb_true_iff. exists ds.
    split; [by intros ->|]. split; [done|]. by left. }
  destruct (decide (c = "+"%char)) as [->|Hp].
  { simpl. intros [Hne Hds]%andb_true_iff. exists ds.
    split; [by intros ->|]. split; [done|]. right. eauto. }
  intros H. exists (String c ds). split; [done|].
  destruct c as [[] [] [] [] [] [] [] []]; try done;
    (split; [exact H|]); right; by split_and!; [| |right].
Qed.

(** [stoi] on white space, a numeral, and a rest that does not go on with
    a digit: the numeral's value when it fits [int]. *)
Lemma stoi_numeral_prefix (ws num rest : string) :
  all_spaces ws = true →
  base10_numeral num = true →
  starts_with_digit rest = false →
  stoi (ws ++ num ++ rest)
  = if in_int_range (numeral_value num) then Returns (numeral_value num)
    else Throws (out_of_range "stoi").
Proof.
  intros Hws Hnum Hrest. unfold stoi. rewrite skip_spaces_app by done.
  destruct (base10_numeral_cases num Hnum)
    as (ds & Hne & Hds & [(-> & Hsign & ->)|(Hsign & -> & Hnum')]).
  - simpl. rewrite (scan_digits_app ds rest Hds Hrest).
    rewrite bool_decide_eq_false_2 by (by destruct ds). done.
  - assert (skip_spaces (num ++ rest) = num ++ rest) as ->.
    { destruct Hnum' as [->| ->]; [done|].
      destruct ds as [|c ds]; [done|]. simpl.
      unfold all_digits in Hds. simpl in Hds.
      apply andb_true_iff in Hds as [Hc _].
      by rewrite (isdigit_not_space c Hc). }
    assert (read_sign (num ++ rest) = (false, ds ++ rest)) as ->.
    { destruct Hnum' as [->| ->]; [done|].
      destruct ds as [|c ds]; [done|]. simpl in *.
      destruct c as [[] [] [] [] [] [] [] []]; try done. }
    rewrite (scan_digits_app ds rest Hds Hrest).
    rewrite bool_decide_eq_false_2 by (by destruct ds). done.
Qed.

(** [stoi] finds no digit, or its argument starts with white space and a
    numeral. *)
Lemma stoi_cases (s : string) :
  stoi s = Throws (invalid_argument "stoi")
  ∨ ∃ ws num rest,
      (s = ws ++ num ++ rest) ∧ all_spaces ws = true
      ∧ base10_numeral num = true ∧ starts_with_digit rest = false.
Proof.
  destruct (skip_spaces_decomp s) as (ws & Hs & Hws).
  unfold stoi. destruct (read_sign (skip_spaces s)) as [neg s2] eqn:Hsign.
  destruct (scan_digits_decomp s2 0%Z) as (ds & rest & -> & Hds & Hrest & Hn).
  destruct (scan_digits 0 (ds ++ rest)) as [v n]. simpl in Hn. subst n.
  destruct ds as [|c ds]; [by left|]. right.
  assert (isdigit c = true) as Hc.
  { unfold all_digits in Hds. simpl in Hds.
    by apply andb_true_iff in Hds as [? _]. }
  assert (base10_numeral (String c ds) = true) as Hnum.
  { destruct c as [[] [] [] [] [] [] [] []]; try done. }
  destruct (skip_spaces s) as [|c1 s1] eqn:Hskip; [done|].
  destruct (decide (c1 = "-"%char)) as [->|Hm].
  { injection Hsign as _ ->.
    exists ws, (String "-" (String c ds)), rest.
    split_and!; try done; simpl; by rewrite Hds. }
  destruct (decide (c1 = "+"%char)) as [->|Hp].
  { injection Hsign as _ ->.
    exists ws, (String "+" (String c ds)), rest.
    split_and!; try done; simpl; by rewrite Hds. }
  assert (read_sign (String c1 s1) = (false, String c1 s1)) as Hdef.
  { destruct c1 as [[] [] [] [] [] [] [] []]; try done. }
  rewrite Hdef in Hsign.
  assert (String c1 s1 = String c ds ++ rest) as Hs2 by congruence.
  exists ws, (String c ds), rest. split_and!; try done. congruence.
Qed.

Lemma getValueAs_int_found (key s : string) (w : World) :
  mutex_ (self w) = false →
  settings_ (self w) !! key = Some s →
  getValueAs_int key w = (stoi s, w).
Proof.
  intros Hm Hk. unfold getValueAs_int, bind.
  by rewrite (getValue_found key s w Hm Hk).
Qed.

(** C3, as the code has it.  For a key that is present with the string
    [s], [getValueAs<int>] reads a prefix of [s]: white space, then a
    base-10 numeral (an optional sign and digits), as many digits as there
    are; what follows is ignored.  It returns the numeral's value when that
    fits [int], and throws [out_of_range] when it does not.  It throws
    [invalid_argument] exactly when [s] has no such prefix.  So it throws
    exactly when [s] has no such prefix with a value that fits [int]. *)
Theorem getValueAs_int_reads_prefix (w : World) (key s : string) :
  mutex_ (self w) = false →
  settings_ (self w) !! key = Some s →
  (∀ ws num rest,
     (s = ws ++ num ++ rest) → all_spaces ws = true →
     base10_numeral num = true → starts_with_digit rest = false →
     getValueAs_int key w
     = (if in_int_range (numeral_value num)
        then Returns (numeral_value num)
        else Throws (out_of_range "stoi"), w))
  ∧ (getValueAs_int key w = (Throws (invalid_argument "stoi"), w) ↔
     ¬ ∃ ws num rest,
         (s = ws ++ num ++ rest) ∧ all_spaces ws = true
         ∧ base10_numeral num = true ∧ starts_with_digit rest = false)
  ∧ (is_throw (getValueAs_int key w).1 = true ↔
     ¬ ∃ ws num rest,
         (s = ws ++ num ++ rest) ∧ all_spaces ws = true
         ∧ base10_numeral num = true ∧ starts_with_digit rest = false
         ∧ in_int_range (numeral_value num) = true).
Proof.
  intros Hm Hk. rewrite (getValueAs_int_found key s w Hm Hk).
  assert (∀ ws num rest,
            (s = ws ++ num ++ rest) → all_spaces ws = true →
            base10_numeral num = true → starts_with_digit rest = false →
            stoi s = if in_int_range (numeral_value num)
                     then Returns (numeral_value num)
                     else Throws (out_of_range "stoi")) as Hprefix.
  { intros ws num rest -> ???. by apply stoi_numeral_prefix. }
  split_and!.
  - intros ws num rest ????. f_equal. by eapply Hprefix.
  - split.
    + intros [= Hs] (ws & num & rest & Hdec & Hws & Hnum & Hrest).
      rewrite (Hprefix ws num rest Hdec Hws Hnum Hrest) in Hs.
      by destruct (in_int_range _).
    + intros Hnone. destruct (stoi_cases s) as [->|Hdec]; [done|].
      by destruct Hnone.
  - simpl. split.
    + intros Hs (ws & num & rest & Hdec & Hws & Hnum & Hrest & Hrange).
      rewrite (Hprefix ws num rest Hdec Hws Hnum Hrest), Hrange in Hs. done.
    + intros Hnone.
      destruct (stoi_cases s) as [->|(ws & num & rest & Hdec & Hws & Hnum & Hrest)];
        [done|].
      rewrite (Hprefix ws num rest Hdec Hws Hnum Hrest).
      destruct (in_int_range (numeral_value num)) eqn:Hrange; [|done].
      destruct Hnone. by exists ws, num, rest.
Qed.

(** * Further properties of the member functions *)

(** ** The getters on a key that is absent *)

(** X2.  [getValue] throws exactly when the key is absent, and then the
    error is "Setting not found: " followed by the key.  The typed getters
    pass that same error on, before any conversion is tried. *)
Theorem getters_on_missing_key (w : World) (key : string) :
  mutex_ (self w) = false →
  (settings_ (self w) !! key = None ↔
   ∃ e, getValue key w = (Throws e, w))
  ∧ (settings_ (self w) !! key = None →
     getValue key w
     = (Throws (runtime_error ("Setting not found: " ++ key)), w)
     ∧ getValueAs_int key w = (Throws (NotFoundError key), w)
     ∧ getValueAs_double key w = (Throws (NotFoundError key), w)
     ∧ getValueAs_bool key w = (Throws (NotFoundError key), w)).
Proof.
  intros Hm. split.
  - split.
    + intros Hk. eexists. by apply getValue_missing.
    + intros [e He]. destruct (settings_ (self w) !! key) as [v|] eqn:Hk; [|done].
      by rewrite (getValue_found key v w Hm Hk) in He.
  - intros Hk. pose proof (getValue_missing key w Hm Hk) as Hget.
    unfold getValueAs_int, getValueAs_double, getValueAs_bool, bind.
    by rewrite Hget.
Qed.

(** ** [saveSettings] *)

(** X3.  [saveSettings] never completes a save.  With no file name it
    throws the state error.  With one, it calls [saveSettingsAs] while
    holding [mutex_], which locks a [std::mutex] its thread already owns:
    undefined behaviour.  In no case does it return, and the world is as
    before. *)
Theorem saveSettings_never_returns (w : World) :
  mutex_ (self w) = false →
  (currentFilename_ (self w) = "" →
   saveSettings w = (Throws StateError, w))
  ∧ (currentFilename_ (self w) ≠ "" → saveSettings w = (Undefined, w))
  ∧ ∀ r w', saveSettings w = (r, w') → r ≠ Returns tt ∧ w' = w.
Proof.
  intros Hm. split_and!.
  - by apply saveSettings_no_filename.
  - intros Hf. by destruct (saveSettings_relocks w Hm Hf).
  - intros r w' Hsave.
    destruct (decide (currentFilename_ (self w) = "")) as [Hf|Hf].
    + rewrite (saveSettings_no_filename w Hm Hf) in Hsave.
      by injection Hsave as <- <-.
    + destruct (saveSettings_relocks w Hm Hf) as [_ E].
      rewrite E in Hsave. by injection Hsave as <- <-.
Qed.

(** ** [loadSettings] again *)

(** X4.  Loading is idempotent: loading the file that was just loaded
    changes nothing. *)
Theorem loadSettings_twice (w w1 : World) (filename : string) :
  mutex_ (self w) = false →
  loadSettings filename w = (Returns tt, w1) →
  loadSettings filename w1 = (Returns tt, w1).
Proof.
  intros Hm Hload.
  destruct (loadSettings_returns filename w w1 Hm Hload)
    as (Hf & content & Hc & Hs & Hm1 & Hname & Hdisk).
  rewrite <- Hdisk in Hc.
  destruct (loadSettings_lookup filename content w1 Hm1 Hf Hc)
    as (w2 & Hload2 & Hs2 & Hm2 & Hname2 & Hdisk2).
  rewrite Hload2. f_equal.
  destruct w1 as [[s1 m1 f1] d1], w2 as [[s2 m2 f2] d2]. simpl in *.
  subst. f_equal. f_equal.
  apply map_eq. intros key. rewrite !apply_entries_lookup.
  by destruct (last_binding key (file_entries content)).
Qed.

(** ** [setValue] *)

(** X5.  Two [setValue]s in a row.  On the same key the second one wins,
    as if the first had not been made; on different keys the order does
    not matter. *)
Theorem setValue_twice (w : World) (k1 v1 k2 v2 : string) :
  mutex_ (self w) = false →
  (k1 = k2 →
   (let* _ := setValue k1 v1 in setValue k2 v2) w = setValue k2 v2 w)
  ∧ (k1 ≠ k2 →
     (let* _ := setValue k1 v1 in setValue k2 v2) w
     = (let* _ := setValue k2 v2 in setValue k1 v1) w).
Proof.
  intros Hm. unfold bind.
  rewrite (setValue_returns k1 v1 w Hm), (setValue_returns k2 v2 w Hm).
  rewrite !setValue_returns by done. unfold with_settings. simpl.
  split.
  - intros ->. by rewrite insert_insert_eq.
  - intros Hne. by rewrite insert_insert_ne.
Qed.

(** ** What each call can change *)

(** X6.  Frame.  The getters and [saveSettings] change nothing at all;
    the setters change the mapping only; [loadSettings] changes the
    mapping and the current file name, never the disk;
    [createFileIfNotExists] and [saveSettingsAs] change the disk only. *)
Theorem perform_frame (c : call) (w w' : World) (r : outcome unit) :
  mutex_ (self w) = false →
  perform c w = (r, w') →
  match c with
  | call_getValue _ | call_getValueAs_int _ | call_getValueAs_double _
  | call_getValueAs_bool _ | call_saveSettings => w' = w
  | call_setValue _ _ | call_setValueAs_int _ _ | call_setValueAs_double _ _
  | call_setValueAs_bool _ _ =>
      currentFilename_ (self w') = currentFilename_ (self w)
      ∧ disk w' = disk w
  | call_loadSettings _ => disk w' = disk w
  | call_createFileIfNotExists _ | call_saveSettingsAs _ => self w' = self w
  end.
Proof.
  intros Hm H.
  assert (∀ A (get : M A) key,
            (∀ v, settings_ (self w) !! key = Some v →
                  ∃ o, get w = (o, w)) →
            (settings_ (self w) !! key = None →
             ∃ o, get w = (o, w)) →
            void get w = (r, w') → w' = w) as Hget.
  { intros A get key Hsome Hnone Hv. unfold void, bind, ret in Hv.
    destruct (settings_ (self w) !! key) as [v|].
    - destruct (Hsome v eq_refl) as [o Ho]. rewrite Ho in Hv.
      destruct o; by injection Hv as _ <-.
    - destruct (Hnone eq_refl) as [o Ho]. rewrite Ho in Hv.
      destruct o; by injection Hv as _ <-. }
  destruct c as [f|f|k|k|k|k|k v|k v|k v|k v| |f]; simpl in H.
  - destruct (createFileIfNotExists_cases f w) as [E|[E|[fs E]]];
      rewrite E in H; by injection H as <- <-.
  - destruct (ifstream_open (disk w) f) as [file|] eqn:Ho.
    + apply ifstream_open_Some in Ho as (Hf & content & Hc & _).
      destruct (loadSettings_lookup f content w Hm Hf Hc)
        as (w1 & E & _ & _ & _ & Hd).
      rewrite E in H. by injection H as <- <-.
    + rewrite (loadSettings_not_opened f w Hm Ho) in H.
      by injection H as <- <-.
  - apply (Hget _ (getValue k) k); [| |done].
    + intros v Hk. eexists. by apply getValue_found.
    + intros Hk. eexists. by apply getValue_missing.
  - apply (Hget _ (getValueAs_int k) k); [| |done].
    + intros v Hk. eexists. by apply getValueAs_int_found.
    + intros Hk. eexists. unfold getValueAs_int, bind.
      by rewrite (getValue_missing k w Hm Hk).
  - apply (Hget _ (getValueAs_double k) k); [| |done].
    + intros v Hk. eexists. unfold getValueAs_double, bind.
      by rewrite (getValue_found k v w Hm Hk).
    + intros Hk. eexists. unfold getValueAs_double, bind.
      by rewrite (getValue_missing k w Hm Hk).
  - apply (Hget _ (getValueAs_bool k) k); [| |done].
    + intros v Hk. eexists. unfold getValueAs_bool, bind.
      by rewrite (getValue_found k v w Hm Hk).
    + intros Hk. eexists. unfold getValueAs_bool, bind.
      by rewrite (getValue_missing k w Hm Hk).
  - rewrite (setValue_returns k v w Hm) in H. by injection H as <- <-.
  - unfold setValueAs_int in H. rewrite (setValue_returns k _ w Hm) in H.
    by injection H as <- <-.
  - unfold setValueAs_double in H. rewrite (setValue_returns k _ w Hm) in H.
    by injection H as <- <-.
  - unfold setValueAs_bool in H. rewrite (setValue_returns k _ w Hm) in H.
    by injection H as <- <-.
  - destruct (decide (currentFilename_ (self w) = "")) as [Hf|Hf].
    + rewrite (saveSettings_no_filename w Hm Hf) in H.
      by injection H as <- <-.
    + destruct (saveSettings_relocks w Hm Hf) as [_ E].
      rewrite E in H. by injection H as <- <-.
  - destruct (ofstream_open (disk w) f) as [file|] eqn:Ho.
    + rewrite (saveSettingsAs_opened f w file Hm Ho) in H.
      by injection H as <- <-.
    + rewrite (saveSettingsAs_not_opened f w Hm Ho) in H.
      by injection H as <- <-.
Qed.

(** ** What [saveSettingsAs] writes *)

Lemma file_lines_settings_text (entries : list (string * string)) :
  Forall (λ e, (newline ∉ list_ascii_of_string e.1)
               ∧ newline ∉ list_ascii_of_string e.2) entries →
  file_lines (settings_text entries)
  = (λ e, e.1 ++ "=" ++ e.2) <$> entries.
Proof.
  induction 1 as [|[k v] entries [Hk Hv] _ IH]; [done|].
  simpl in *.
  replace (k ++ String "=" (v ++ String newline (settings_text entries)))
    with ((k ++ String "=" v) ++ String newline (settings_text entries))
    by (by rewrite string_app_assoc).
  rewrite file_lines_cons, IH; [done|].
  rewrite chars_app. simpl.
  rewrite not_elem_of_app, not_elem_of_cons. by split_and!.
Qed.

(** X7.  The file that [saveSettingsAs(p)] leaves.  When no key and no
    value contains a newline, the file holds one line [key=value] for each
    entry of the mapping and nothing else, in some order, whatever it held
    before; every other file is as it was. *)
Theorem saveSettingsAs_writes_lines (w w1 : World) (p : string) :
  mutex_ (self w) = false →
  (∀ k v, settings_ (self w) !! k = Some v →
     (newline ∉ list_ascii_of_string k) ∧ newline ∉ list_ascii_of_string v) →
  saveSettingsAs p w = (Returns tt, w1) →
  self w1 = self w
  ∧ (∀ q, q ≠ p → files (disk w1) !! q = files (disk w) !! q)
  ∧ ∃ content,
      files (disk w1) !! p = Some content
      ∧ file_lines content
        ≡ₚ (λ e, e.1 ++ "=" ++ e.2) <$> map_to_list (settings_ (self w)).
Proof.
  intros Hm Hnl Hsave.
  destruct (ofstream_open (disk w) p) as [file|] eqn:Ho;
    [|by rewrite (saveSettingsAs_not_opened p w Hm Ho) in Hsave].
  rewrite (saveSettingsAs_opened p w file Hm Ho) in Hsave.
  injection Hsave as <-. simpl. split; [done|]. split.
  - intros q Hq. by apply lookup_insert_ne.
  - eexists. split; [apply lookup_insert_eq|].
    rewrite file_lines_settings_text.
    + by rewrite iteration_perm.
    + apply Forall_forall. intros [k v] Hin. rewrite iteration_perm in Hin.
      apply elem_of_map_to_list in Hin. by apply Hnl.
Qed.

(** X8.  Saving and loading back in the same store.  With keys and values
    free of [=] and newline, [saveSettingsAs(p)] followed by
    [loadSettings(p)] on the same object leaves the mapping as it was,
    entries with an empty value included, and makes [p] the current file
    name. *)
Theorem saveSettingsAs_then_loadSettings (w w1 : World) (p : string) :
  mutex_ (self w) = false →
  (∀ k v, settings_ (self w) !! k = Some v → plain k ∧ plain v) →
  saveSettingsAs p w = (Returns tt, w1) →
  ∃ w2, loadSettings p w1 = (Returns tt, w2)
    ∧ settings_ (self w2) = settings_ (self w)
    ∧ currentFilename_ (self w2) = p
    ∧ disk w2 = disk w1.
Proof.
  intros Hm Hplain Hsave.
  destruct (ofstream_open (disk w) p) as [file|] eqn:Ho;
    [|by rewrite (saveSettingsAs_not_opened p w Hm Ho) in Hsave].
  rewrite (saveSettingsAs_opened p w file Hm Ho) in Hsave.
  injection Hsave as <-. apply ofstream_open_Some in Ho as (Hp & _ & _).
  set (content := settings_text (iteration (settings_ (self w)))).
  set (w1 := with_disk _ w).
  destruct (loadSettings_lookup p content w1)
    as (w2 & Hload & Hs & _ & Hname & Hdisk);
    [done | done | apply lookup_insert_eq |].
  exists w2. split_and!; try done.
  rewrite Hs. simpl. unfold content.
  rewrite file_entries_settings_text.
  - rewrite apply_entries_union.
    rewrite (apply_entries_map (settings_ (self w))) by done.
    apply map_subseteq_union.
    apply (map_filter_subseteq (M:=gmap string)).
  - apply Forall_forall. intros [k v] Hin. rewrite iteration_perm in Hin.
    apply elem_of_map_to_list in Hin. by apply Hplain.
Qed.

(** ** What a load can bring in *)

Lemma file_lines_no_newline (content : string) :
  Forall (λ line, newline ∉ list_ascii_of_string line) (file_lines content).
Proof.
  induction content as [|c rest IH]; simpl; [constructor|].
  destruct (Ascii.eqb_spec c newline) as [->|Hc].
  - constructor; [apply not_elem_of_nil | done].
  - destruct (file_lines rest) as [|line lines].
    + constructor; [|constructor]. simpl.
      apply not_elem_of_cons. split; [done | apply not_elem_of_nil].
    + apply Forall_cons in IH as [Hline Hlines]. constructor; [|done].
      simpl. apply not_elem_of_cons. split; [done | done].
Qed.

Lemma last_binding_elem (es : list (string * string)) key value :
  last_binding key es = Some value → (key, value) ∈ es.
Proof.
  induction es as [|[k v] es IH] using rev_ind; [done|].
  rewrite last_binding_snoc, elem_of_app, list_elem_of_singleton. simpl.
  destruct (decide (k = key)) as [->|Hne].
  - intros [= ->]. by right.
  - intros H. left. by apply IH.
Qed.

(** X9.  What [loadSettings] can bring in.  After a load, an entry of the
    mapping either was there before, or it comes from a line of the file:
    then its key contains no [=] and no newline, and its value is not empty
    and contains no newline.  In particular a load never stores an empty
    value. *)
Theorem loadSettings_entries (w w1 : World) (filename : string) :
  mutex_ (self w) = false →
  loadSettings filename w = (Returns tt, w1) →
  ∀ key value,
    settings_ (self w1) !! key = Some value →
    settings_ (self w) !! key = Some value
    ∨ (plain key ∧ value ≠ "" ∧ (newline ∉ list_ascii_of_string value)
       ∧ ∃ content,
           files (disk w) !! filename = Some content
           ∧ (key ++ "=" ++ value)%string ∈ file_lines content).
Proof.
  intros Hm Hload key value Hk.
  destruct (loadSettings_returns filename w w1 Hm Hload)
    as (_ & content & Hc & Hs & _).
  rewrite Hs, apply_entries_lookup in Hk.
  destruct (last_binding key (file_entries content)) as [v|] eqn:Hlast;
    [|by left].
  injection Hk as ->. right.
  apply last_binding_elem, list_elem_of_omap in Hlast
    as (line & Hline & Hentry).
  apply line_entry_Some in Hentry as (-> & Hkey & Hvalue).
  pose proof (file_lines_no_newline content) as Hnl.
  rewrite Forall_forall in Hnl. specialize (Hnl _ Hline).
  rewrite chars_app in Hnl. simpl in Hnl.
  rewrite not_elem_of_app, not_elem_of_cons in Hnl.
  destruct Hnl as (Hnk & _ & Hnv).
  split_and!; try done. by exists content.
Qed.

(** ** The last line of a file *)

Lemma file_lines_final_newline (text : string) (c : ascii) :
  c ≠ newline →
  file_lines (text ++ String c nl) = file_lines (text ++ String c "").
Proof.
  intros Hc. unfold nl. induction text as [|a text IH]; simpl.
  - by destruct (Ascii.eqb_spec c newline).
  - by rewrite IH.
Qed.

(** X10.  The newline that ends the last line is optional: a file whose
    last line is not terminated loads like the same file with the newline
    added. *)
Theorem loadSettings_final_newline (w w' : World) (filename text : string)
    (c : ascii) :
  mutex_ (self w) = false →
  self w' = self w →
  filename ≠ "" →
  c ≠ newline →
  files (disk w) !! filename = Some (text ++ String c "") →
  files (disk w') !! filename = Some (text ++ String c nl) →
  ∃ w1 w1', loadSettings filename w = (Returns tt, w1)
    ∧ loadSettings filename w' = (Returns tt, w1')
    ∧ self w1' = self w1.
Proof.
  intros Hm Hself Hf Hc Hfile Hfile'.
  assert (mutex_ (self w') = false) as Hm' by (by rewrite Hself).
  destruct (loadSettings_lookup filename _ w Hm Hf Hfile)
    as (w1 & Hload & Hs & Hm1 & Hname & _).
  destruct (loadSettings_lookup filename _ w' Hm' Hf Hfile')
    as (w1' & Hload' & Hs' & Hm1' & Hname' & _).
  exists w1, w1'. split_and!; try done.
  destruct w1 as [[s1 m1 f1] d1], w1' as [[s2 m2 f2] d2]. simpl in *.
  subst. f_equal. unfold file_entries.
  by rewrite file_lines_final_newline, Hself.
Qed.

(** ** [std::to_string(int)] and [std::stoi] *)

Lemma string_of_uint_digits (d : Decimal.uint) :
  all_digits (NilEmpty.string_of_uint d) = true.
Proof.
  unfold all_digits. induction d; simpl; [done|..]; by rewrite IHd.
Qed.

Lemma string_of_uint_value_acc (d : Decimal.uint) :
  ∀ acc : positive,
    fold_left (λ acc c, 10 * acc + digit_value c)%Z
              (list_ascii_of_string (NilEmpty.string_of_uint d)) (Z.pos acc)
    = Z.pos (Pos.of_uint_acc d acc).
Proof.
  induction d; intros acc; simpl; [done|..];
    rewrite <- IHd; f_equal; eval_digit_value; lia.
Qed.

Lemma string_of_uint_value (d : Decimal.uint) :
  digits_value (NilEmpty.string_of_uint d) = Z.of_uint d.
Proof.
  unfold digits_value, Z.of_uint.
  induction d; simpl; [done| |..];
    eval_digit_value; [exact IHd|..]; apply string_of_uint_value_acc.
Qed.

Lemma string_of_uint_numeral (d : Decimal.uint) :
  let s := NilZero.string_of_uint d in
  s ≠ "" ∧ all_digits s = true ∧ digits_value s = Z.of_uint d
  ∧ base10_numeral s = true ∧ numeral_value s = Z.of_uint d.
Proof.
  pose proof (string_of_uint_digits d) as Hds.
  pose proof (string_of_uint_value d) as Hv.
  destruct d; simpl in *; by split_and!.
Qed.

(** The numeral that [std::to_string] writes for an integer denotes
    it. *)
Lemma to_string_int_numeral (z : Z) :
  base10_numeral (to_string_int z) = true
  ∧ numeral_value (to_string_int z) = z.
Proof.
  unfold to_string_int. rewrite <- (DecimalZ.of_to z) at 3.
  destruct (Z.to_int z) as [d|d]; simpl;
    destruct (string_of_uint_numeral d) as (Hne & Hds & Hv & Hnum & Hnv).
  - done.
  - split; [|by rewrite Hv].
    rewrite Hds. by destruct (NilZero.string_of_uint d).
Qed.

Lemma stoi_to_string_int (z : Z) :
  (INT_MIN ≤ z ≤ INT_MAX)%Z → stoi (to_string_int z) = Returns z.
Proof.
  intros Hz. destruct (to_string_int_numeral z) as [Hnum Hv].
  pose proof (stoi_numeral_prefix "" (to_string_int z) "" eq_refl Hnum eq_refl)
    as Hstoi.
  simpl in Hstoi. rewrite string_app_nil_r, Hv in Hstoi.
  rewrite Hstoi. unfold in_int_range. by rewrite bool_decide_eq_true_2.
Qed.

(** X11.  Integers round-trip: after [setValueAs<int>(k, z)],
    [getValueAs<int>(k)] returns [z], for every [int] [z]. *)
Theorem setValueAs_int_then_getValueAs_int (w : World) (k : string) (z : Z) :
  mutex_ (self w) = false →
  (INT_MIN ≤ z ≤ INT_MAX)%Z →
  ∃ w', setValueAs_int k z w = (Returns tt, w')
    ∧ getValueAs_int k w' = (Returns z, w').
Proof.
  intros Hm Hz. unfold setValueAs_int.
  destruct (setValue_getValue k (to_string_int z) w Hm)
    as (w' & Hset & _ & Hs & Hm' & _).
  exists w'. split; [done|].
  rewrite (getValueAs_int_found k (to_string_int z) w' Hm').
  - by rewrite stoi_to_string_int.
  - rewrite Hs. apply lookup_insert_eq.
Qed.

(** X12.  One stored string, two typed views.  After
    [setValueAs<int>(k, z)], [getValueAs<bool>(k)] is [true] exactly when
    [z] is 1.  After [setValueAs<bool>(k, b)], [getValueAs<int>(k)] throws
    [std::invalid_argument]: ["true"] and ["false"] start with no digit. *)
Theorem typed_views (w : World) (k : string) :
  mutex_ (self w) = false →
  (∀ z, ∃ w', setValueAs_int k z w = (Returns tt, w')
          ∧ getValueAs_bool k w' = (Returns (bool_decide (z = 1%Z)), w'))
  ∧ (∀ b, ∃ w', setValueAs_bool k b w = (Returns tt, w')
          ∧ getValueAs_int k w'
            = (Throws (invalid_argument "stoi"), w')).
Proof.
  intros Hm. split.
  - intros z. unfold setValueAs_int.
    destruct (setValue_getValue k (to_string_int z) w Hm)
      as (w' & Hset & Hget & _).
    exists w'. split; [done|]. unfold getValueAs_bool, bind. rewrite Hget.
    unfold ret. do 2 f_equal.
    destruct (to_string_int_numeral z) as [Hnum Hv].
    destruct (String.eqb_spec (to_string_int z) "true") as [E|_].
    { by rewrite E in Hnum. }
    destruct (String.eqb_spec (to_string_int z) "1") as [E|Hne]; simpl.
    + rewrite E in Hv. symmetry. apply bool_decide_eq_true_2.
      by rewrite <- Hv.
    + symmetry. apply bool_decide_eq_false_2. by intros ->.
  - intros b. unfold setValueAs_bool.
    destruct (setValue_getValue k (if b then "true" else "false") w Hm)
      as (w' & Hset & _ & Hs & Hm' & _).
    exists w'. split; [done|].
    rewrite (getValueAs_int_found k (if b then "true" else "false") w' Hm').
    + by destruct b.
    + rewrite Hs. apply lookup_insert_eq.
Qed.

(** ** No escaping *)

(** X13.  A key is not escaped when it is written.  A mapping whose one
    key contains [=] does not come back from its file: the line is cut at
    its first [=].  Let [k1] contain no [=] and no newline, and [k2] and
    [v] no newline: the mapping with the single entry [k1=k2 ↦ v], written
    and loaded into a fresh store, is read back as the single entry
    [k1 ↦ k2=v]. *)
Theorem key_with_equals_is_cut (w w1 : World) (p k1 k2 v : string) :
  mutex_ (self w) = false →
  settings_ (self w) = {[ (k1 ++ "=" ++ k2)%string := v ]} →
  plain k1 →
  newline ∉ list_ascii_of_string k2 →
  newline ∉ list_ascii_of_string v →
  saveSettingsAs p w = (Returns tt, w1) →
  ∃ w2, loadSettings p (mk_world getInstance (disk w1)) = (Returns tt, w2)
    ∧ settings_ (self w2) = {[ k1 := (k2 ++ "=" ++ v)%string ]}.
Proof.
  intros Hm HM [Hk1e Hk1n] Hk2 Hv Hsave.
  destruct (ofstream_open (disk w) p) as [file|] eqn:Ho;
    [|by rewrite (saveSettingsAs_not_opened p w Hm Ho) in Hsave].
  rewrite (saveSettingsAs_opened p w file Hm Ho) in Hsave.
  injection Hsave as <-. apply ofstream_open_Some in Ho as (Hp & _ & _).
  assert (iteration (settings_ (self w)) = [((k1 ++ "=" ++ k2)%string, v)])
    as Hit.
  { apply Permutation_singleton_r.
    by rewrite iteration_perm, HM, map_to_list_singleton. }
  rewrite Hit. simpl.
  set (content := (k1 ++ String "=" k2) ++ String "=" (v ++ String newline "")).
  destruct (loadSettings_lookup p content
              (mk_world getInstance
                 (mk_fs (<[p := content]> (files (disk w))) (denied (disk w)))))
    as (w2 & Hload & Hs & _); [done | done | apply lookup_insert_eq |].
  exists w2. split; [done|]. rewrite Hs. simpl.
  unfold file_entries.
  change content
    with (settings_text [((k1 ++ "=" ++ k2)%string, v)]).
  rewrite file_lines_settings_text.
  - cbn [fmap list_fmap omap list_omap fst snd].
    assert (line_entry ((k1 ++ "=" ++ k2) ++ "=" ++ v)
            = Some (k1, (k2 ++ "=" ++ v)%string)) as ->; [|done].
    apply line_entry_Some. split_and!; [|done|by destruct k2].
    by rewrite string_app_assoc.
  - constructor; [|constructor]. simpl. split; [|done].
    rewrite chars_app. simpl.
    rewrite not_elem_of_app, not_elem_of_cons. by split_and!.
Qed.

End Store.

(** * Examples

    Each property above that has a hypothesis is applied here to a
    concrete store, and each claim of the specification that the code does
    not meet is shown failing on one. *)

(** C1: a store that holds [old] loads a file that holds [new]. *)
Lemma loadSettings_merges_witness :
  let fs := mk_fs {["settings.txt" := "new=y" ++ nl]} ∅ in
  let w := mk_world (mk_parser {["old" := "x"]} false "") fs in
  let w' := mk_world (mk_parser (<["new" := "y"]> {["old" := "x"]}) false
                                "settings.txt") fs in
  ∃ content,
    files (disk w) !! "settings.txt" = Some content
    ∧ settings_ (self w') = parsed_pairs content ∪ settings_ (self w)
    ∧ currentFilename_ (self w') = "settings.txt".
Proof.
  intros fs w w'.
  apply (loadSettings_merges w w' "settings.txt");
    [reflexivity | vm_compute; reflexivity].
Defined.

(** C1 as stated fails: [old] was in the mapping before the load, does not
    occur in the file, and is still there afterwards; the mapping is not
    the set of pairs parsed from the file. *)
Lemma loadSettings_replaces_counterexample :
  let content := "new=y" ++ nl in
  let fs := mk_fs {["settings.txt" := content]} ∅ in
  let w := mk_world (mk_parser {["old" := "x"]} false "") fs in
  ∃ w', loadSettings "settings.txt" w = (Returns tt, w')
    ∧ settings_ (self w) !! "old" = Some "x"
    ∧ parsed_pairs content !! "old" = None
    ∧ settings_ (self w') !! "old" = Some "x"
    ∧ settings_ (self w') ≠ parsed_pairs content.
Proof.
  eexists. split; [vm_compute; reflexivity|].
  split_and!; [reflexivity | reflexivity | reflexivity |].
  intros H. apply (f_equal (λ m : gmap string string, m !! "old")) in H.
  vm_compute in H. discriminate H.
Qed.

(** C2: a mapping with two entries, one of them without a value, is
    written and read back. *)
Lemma save_then_load_witness :
  let w := mk_world (mk_parser (<["name" := "ada"]> {["note" := ""]}) false "")
                    (mk_fs ∅ ∅) in
  let text := "note=" ++ nl ++ "name=ada" ++ nl in
  let w1 := mk_world (self w) (mk_fs {["settings.txt" := text]} ∅) in
  ∃ w2, loadSettings "settings.txt" (mk_world getInstance (disk w1))
        = (Returns tt, w2)
    ∧ settings_ (self w2) = filter (λ e, e.2 ≠ "") (settings_ (self w))
    ∧ (settings_ (self w2) = settings_ (self w) ↔
       ∀ k v, settings_ (self w) !! k = Some v → v ≠ "").
Proof.
  intros w text w1.
  apply (save_then_load example_iteration (λ m, reflexivity _) w w1
                        "settings.txt").
  - reflexivity.
  - apply (bool_decide_unpack
             (map_Forall (λ k v, plain k ∧ plain v) (settings_ (self w)))).
    vm_compute. exact I.
  - vm_compute. reflexivity.
Defined.

(** C2 as stated fails: the entry [k] with the empty value is written as
    the line [k=], which the load drops. *)
Lemma round_trip_counterexample :
  let w := mk_world (mk_parser {["k" := ""]} false "") (mk_fs ∅ ∅) in
  plain "k" ∧ plain ""
  ∧ ∃ w1 w2,
      saveSettingsAs example_iteration "settings.txt" w = (Returns tt, w1)
      ∧ loadSettings "settings.txt" (mk_world getInstance (disk w1))
        = (Returns tt, w2)
      ∧ settings_ (self w) !! "k" = Some ""
      ∧ settings_ (self w2) !! "k" = None
      ∧ settings_ (self w2) ≠ settings_ (self w).
Proof.
  split; [by apply (bool_decide_unpack (plain "k"))|].
  split; [by apply (bool_decide_unpack (plain ""))|].
  eexists. eexists. split; [vm_compute; reflexivity|].
  split; [vm_compute; reflexivity|].
  split_and!; [reflexivity | reflexivity |].
  intros H. apply (f_equal (λ m : gmap string string, m !! "k")) in H.
  vm_compute in H. discriminate H.
Qed.

(** C3: white space, a signed numeral, and text after it. *)
Lemma getValueAs_int_reads_prefix_witness :
  let w := mk_world (mk_parser {["n" := "  -42 apples"]} false "")
                    (mk_fs ∅ ∅) in
  getValueAs_int "n" w = (Returns (-42)%Z, w).
Proof.
  intros w.
  exact (proj1 (getValueAs_int_reads_prefix w "n" "  -42 apples"
                  eq_refl eq_refl)
               "  " "-42" " apples" eq_refl eq_refl eq_refl eq_refl).
Defined.

(** C3 as stated fails in both directions: ["123abc"] is no numeral and
    is read as 123, and ["2147483648"] is a numeral and is refused. *)
Lemma getValueAs_int_counterexample :
  let w := mk_world (mk_parser (<["a" := "123abc"]> {["b" := "2147483648"]})
                               false "") (mk_fs ∅ ∅) in
  base10_numeral "123abc" = false
  ∧ getValueAs_int "a" w = (Returns 123%Z, w)
  ∧ base10_numeral "2147483648" = true
  ∧ getValueAs_int "b" w = (Throws (out_of_range "stoi"), w).
Proof. split_and!; vm_compute; reflexivity. Qed.

(** C4: a run that saves under a name and then saves without one. *)
Lemma saveSettings_StateError_witness :
  let fs := mk_fs ∅ ∅ in
  let w := mk_world getInstance (mk_fs {["out.txt" := ""]} ∅) in
  saveSettings example_iteration w = (Throws StateError, w).
Proof.
  intros fs w.
  apply (proj1 (saveSettings_StateError Empty_set example_stod
                  example_to_string example_iteration fs)
               [call_saveSettingsAs Empty_set "out.txt"] [Returns tt] w).
  - vm_compute. reflexivity.
  - reflexivity.
  - reflexivity.
Defined.

(** C4 as stated fails: [saveSettingsAs] has returned, no load came
    before, and [saveSettings] throws the state error. *)
Lemma saveSettings_after_saveSettingsAs_counterexample :
  let w := mk_world getInstance (mk_fs ∅ ∅) in
  ∃ w', saveSettingsAs example_iteration "out.txt" w = (Returns tt, w')
    ∧ saveSettings example_iteration w' = (Throws StateError, w').
Proof.
  eexists. split; [vm_compute; reflexivity|]. vm_compute. reflexivity.
Qed.

(** C5: a file with a repeated key, a line without [=], a line without a
    value and an unterminated last line, loaded over an entry. *)
Lemma loadSettings_line_format_witness :
  let content := "a=1" ++ nl ++ "badline" ++ nl ++ "b=" ++ nl
                 ++ "a=2=3" ++ nl ++ "c=4" in
  let fs := mk_fs {["settings.txt" := content]} ∅ in
  let w := mk_world (mk_parser {["b" := "0"]} false "") fs in
  ∃ w', loadSettings "settings.txt" w = (Returns tt, w')
    ∧ settings_ (self w') !! "a" = Some "2=3"
    ∧ settings_ (self w') !! "b" = Some "0"
    ∧ settings_ (self w') !! "c" = Some "4"
    ∧ settings_ (self w') !! "badline" = None.
Proof.
  intros content fs w.
  destruct (proj1 loadSettings_line_format w "settings.txt" content)
    as (w' & Hload & Hkeys); [reflexivity | discriminate | reflexivity |].
  exists w'. split; [exact Hload|].
  split_and!; rewrite Hkeys; vm_compute; reflexivity.
Defined.

(** C6: a stored string that is neither ["true"] nor ["1"]. *)
Lemma getValueAs_bool_total_witness :
  let w := mk_world (mk_parser {["flag" := "yes"]} false "") (mk_fs ∅ ∅) in
  getValueAs_bool "flag" w = (Returns false, w).
Proof.
  intros w.
  exact (proj1 (getValueAs_bool_total w "flag" eq_refl) "yes" eq_refl).
Defined.

(** C7: a load of a file that does not exist. *)
Lemma throw_changes_nothing_witness :
  let w := mk_world (mk_parser {["a" := "1"]} false "settings.txt")
                    (mk_fs {["settings.txt" := "a=1" ++ nl]} ∅) in
  let load := perform Empty_set example_stod example_to_string
                      example_iteration
                      (call_loadSettings Empty_set "missing.txt") in
  ∃ w', load w = (Throws (IOError_open "missing.txt"), w')
    ∧ settings_ (self w') = {["a" := "1"]}
    ∧ currentFilename_ (self w') = "settings.txt"
    ∧ w' = w.
Proof.
  intros w load. exists w.
  assert (load w = (Throws (IOError_open "missing.txt"), w)) as Hload
    by (vm_compute; reflexivity).
  split; [exact Hload|].
  exact (throw_changes_nothing Empty_set example_stod example_to_string
           example_iteration (call_loadSettings Empty_set "missing.txt")
           w w (IOError_open "missing.txt") eq_refl Hload).
Defined.

(** C8: a store loaded from one file is saved under another name. *)
Lemma saveSettingsAs_frame_witness :
  let text := "a=1" ++ nl in
  let w0 := mk_world getInstance (mk_fs {["settings.txt" := text]} ∅) in
  let w := mk_world (mk_parser {["a" := "1"]} false "settings.txt")
                    (disk w0) in
  let w' := mk_world (self w)
              (mk_fs (<["copy.txt" := text]> {["settings.txt" := text]}) ∅) in
  settings_ (self w') = {["a" := "1"]}
  ∧ currentFilename_ (self w') = "settings.txt"
  ∧ saveSettings example_iteration w'
    = lock_guard (saveSettingsAs example_iteration "settings.txt") w'.
Proof.
  intros text w0 w w'.
  destruct (saveSettingsAs_frame example_iteration w w' "copy.txt")
    as (Hs & Hf & Hsave); [reflexivity | vm_compute; reflexivity |].
  destruct (Hsave w0 "settings.txt") as (_ & _ & Hcall & _);
    [reflexivity | vm_compute; reflexivity |].
  split_and!; [exact Hs | exact Hf | exact Hcall].
Defined.

(** C9: an entry is overwritten. *)
Lemma setValue_then_getValue_witness :
  let w := mk_world (mk_parser {["volume" := "3"]} false "") (mk_fs ∅ ∅) in
  ∃ w', setValue "volume" "11" w = (Returns tt, w')
    ∧ getValue "volume" w' = (Returns "11", w').
Proof.
  intros w.
  destruct (setValue_then_getValue w "volume" "11")
    as (w' & Hset & Hget & _); [reflexivity | discriminate |].
  exists w'. split; [exact Hset | exact Hget].
Defined.



(** * Examples for the further properties *)

(** X2: a fresh store has no key. *)
Lemma getters_on_missing_key_witness :
  let w := mk_world getInstance (mk_fs ∅ ∅) in
  getValue "volume" w = (Throws (runtime_error "Setting not found: volume"), w)
  ∧ getValueAs_int "volume" w = (Throws (NotFoundError "volume"), w)
  ∧ getValueAs_double Empty_set example_stod "volume" w
    = (Throws (NotFoundError "volume"), w)
  ∧ getValueAs_bool "volume" w = (Throws (NotFoundError "volume"), w).
Proof.
  intros w.
  exact (proj2 (getters_on_missing_key Empty_set example_stod w "volume"
                  eq_refl) eq_refl).
Defined.

(** X3: a store that was loaded from a file. *)
Lemma saveSettings_never_returns_witness :
  let w := mk_world (mk_parser {["a" := "1"]} false "settings.txt")
                    (mk_fs {["settings.txt" := "a=1" ++ nl]} ∅) in
  saveSettings example_iteration w = (Undefined, w).
Proof.
  intros w.
  apply (proj1 (proj2 (saveSettings_never_returns example_iteration w
                         eq_refl))).
  discriminate.
Defined.

(** X4: a file with a repeated key, loaded over an entry. *)
Lemma loadSettings_twice_witness :
  let fs := mk_fs {["settings.txt" := "a=1" ++ nl ++ "a=2" ++ nl]} ∅ in
  let w := mk_world (mk_parser {["b" := "0"]} false "") fs in
  let w1 := mk_world (mk_parser (<["a" := "2"]> {["b" := "0"]}) false
                                "settings.txt") fs in
  loadSettings "settings.txt" w1 = (Returns tt, w1).
Proof.
  intros fs w w1.
  apply (loadSettings_twice w w1 "settings.txt");
    [reflexivity | vm_compute; reflexivity].
Defined.

(** X5: two keys set in either order. *)
Lemma setValue_twice_witness :
  let w := mk_world getInstance (mk_fs ∅ ∅) in
  (let* _ := setValue "a" "1" in setValue "b" "2") w
  = (let* _ := setValue "b" "2" in setValue "a" "1") w.
Proof.
  intros w.
  apply (proj2 (setValue_twice w "a" "1" "b" "2" eq_refl)).
  discriminate.
Defined.

(** X6: a setter leaves the file name and the disk alone. *)
Lemma perform_frame_witness :
  let w := mk_world (mk_parser ∅ false "settings.txt")
                    (mk_fs {["settings.txt" := ""]} ∅) in
  let w' := mk_world (mk_parser {["a" := "1"]} false "settings.txt")
                     (disk w) in
  currentFilename_ (self w') = currentFilename_ (self w)
  ∧ disk w' = disk w.
Proof.
  intros w w'.
  apply (perform_frame Empty_set example_stod example_to_string
           example_iteration (call_setValue Empty_set "a" "1") w w'
           (Returns tt));
    [reflexivity | vm_compute; reflexivity].
Defined.

(** X7: two entries are written over an older, longer file. *)
Lemma saveSettingsAs_writes_lines_witness :
  let old := "x=1" ++ nl ++ "y=2" ++ nl ++ "z=3" ++ nl in
  let w := mk_world (mk_parser (<["name" := "ada"]> {["note" := ""]}) false "")
                    (mk_fs {["settings.txt" := old]} ∅) in
  let text := "note=" ++ nl ++ "name=ada" ++ nl in
  let w1 := mk_world (self w) (mk_fs {["settings.txt" := text]} ∅) in
  ∃ content,
    files (disk w1) !! "settings.txt" = Some content
    ∧ file_lines content
      ≡ₚ (λ e, e.1 ++ "=" ++ e.2) <$> map_to_list (settings_ (self w)).
Proof.
  intros old w text w1.
  destruct (saveSettingsAs_writes_lines example_iteration
              (λ m, reflexivity _) w w1 "settings.txt")
    as (_ & _ & Hfile).
  - reflexivity.
  - apply (bool_decide_unpack
             (map_Forall (λ k v, (newline ∉ list_ascii_of_string k)
                                 ∧ newline ∉ list_ascii_of_string v)
                         (settings_ (self w)))).
    vm_compute. exact I.
  - vm_compute. reflexivity.
  - exact Hfile.
Defined.

(** X8: a mapping with an empty value is saved and loaded back in
    place. *)
Lemma saveSettingsAs_then_loadSettings_witness :
  let w := mk_world (mk_parser (<["name" := "ada"]> {["note" := ""]}) false "")
                    (mk_fs ∅ ∅) in
  let text := "note=" ++ nl ++ "name=ada" ++ nl in
  let w1 := mk_world (self w) (mk_fs {["settings.txt" := text]} ∅) in
  ∃ w2, loadSettings "settings.txt" w1 = (Returns tt, w2)
    ∧ settings_ (self w2) = settings_ (self w)
    ∧ currentFilename_ (self w2) = "settings.txt"
    ∧ disk w2 = disk w1.
Proof.
  intros w text w1.
  apply (saveSettingsAs_then_loadSettings example_iteration
           (λ m, reflexivity _) w w1 "settings.txt").
  - reflexivity.
  - apply (bool_decide_unpack
             (map_Forall (λ k v, plain k ∧ plain v) (settings_ (self w)))).
    vm_compute. exact I.
  - vm_compute. reflexivity.
Defined.

(** X9: the entry that a load has brought in. *)
Lemma loadSettings_entries_witness :
  let fs := mk_fs {["settings.txt" := "a=1" ++ nl ++ "b=" ++ nl]} ∅ in
  let w := mk_world (mk_parser {["b" := ""]} false "") fs in
  let w1 := mk_world (mk_parser (<["a" := "1"]> {["b" := ""]}) false
                                "settings.txt") fs in
  settings_ (self w) !! "a" = Some "1"
  ∨ (plain "a" ∧ "1" ≠ "" ∧ (newline ∉ list_ascii_of_string "1")
     ∧ ∃ content,
         files (disk w) !! "settings.txt" = Some content
         ∧ ("a" ++ "=" ++ "1")%string ∈ file_lines content).
Proof.
  intros fs w w1.
  apply (loadSettings_entries w w1 "settings.txt");
    [reflexivity | vm_compute; reflexivity | reflexivity].
Defined.

(** X10: the same two lines, the second one terminated or not. *)
Lemma loadSettings_final_newline_witness :
  let text := "a=1" ++ nl ++ "b=" in
  let w := mk_world getInstance
             (mk_fs {["settings.txt" := text ++ "2"]} ∅) in
  let w' := mk_world getInstance
              (mk_fs {["settings.txt" := text ++ "2" ++ nl]} ∅) in
  ∃ w1 w1', loadSettings "settings.txt" w = (Returns tt, w1)
    ∧ loadSettings "settings.txt" w' = (Returns tt, w1')
    ∧ self w1' = self w1.
Proof.
  intros text w w'.
  apply (loadSettings_final_newline w w' "settings.txt" text "2"%char);
    [reflexivity | reflexivity | discriminate | discriminate
    | reflexivity | reflexivity].
Defined.

(** X11: the least [int]. *)
Lemma setValueAs_int_then_getValueAs_int_witness :
  let w := mk_world getInstance (mk_fs ∅ ∅) in
  ∃ w', setValueAs_int "low" (-2147483648) w = (Returns tt, w')
    ∧ getValueAs_int "low" w' = (Returns (-2147483648)%Z, w').
Proof.
  intros w.
  apply (setValueAs_int_then_getValueAs_int w "low" (-2147483648));
    [reflexivity | by vm_compute].
Defined.

(** X12: the integer 1 read as a boolean, and a boolean read as an
    integer. *)
Lemma typed_views_witness :
  let w := mk_world getInstance (mk_fs ∅ ∅) in
  (∃ w', setValueAs_int "flag" 1 w = (Returns tt, w')
     ∧ getValueAs_bool "flag" w' = (Returns true, w'))
  ∧ (∃ w', setValueAs_bool "flag" true w = (Returns tt, w')
       ∧ getValueAs_int "flag" w' = (Throws (invalid_argument "stoi"), w')).
Proof.
  intros w.
  destruct (typed_views w "flag" eq_refl) as [Hint Hbool].
  split; [exact (Hint 1%Z) | exact (Hbool true)].
Defined.

(** X13: the key [a=b]. *)
Lemma key_with_equals_is_cut_witness :
  let w := mk_world (mk_parser {["a=b" := "c"]} false "") (mk_fs ∅ ∅) in
  let w1 := mk_world (self w)
              (mk_fs {["settings.txt" := "a=b=c" ++ nl]} ∅) in
  ∃ w2, loadSettings "settings.txt" (mk_world getInstance (disk w1))
        = (Returns tt, w2)
    ∧ settings_ (self w2) = {["a" := "b=c"]}.
Proof.
  intros w w1.
  apply (key_with_equals_is_cut example_iteration (λ m, reflexivity _)
           w w1 "settings.txt" "a" "b" "c").
  - reflexivity.
  - reflexivity.
  - apply (bool_decide_unpack (plain "a")). vm_compute. exact I.
  - apply (bool_decide_unpack (newline ∉ list_ascii_of_string "b")).
    vm_compute. exact I.
  - apply (bool_decide_unpack (newline ∉ list_ascii_of_string "c")).
    vm_compute. exact I.
  - vm_compute. reflexivity.
Defined.
